(** * cbpro/order_book.py: the live level-3 order book

    A shallow embedding of [cbpro.order_book.OrderBook] and the properties
    of its event handler [on_message] and of the four primitives [add],
    [remove], [match] and [change].

    Modelling choices.
    - A [Decimal] is an exact rational ([Qc]: canonical fractions, so that
      Leibniz equality is Python's numeric [==] and two spellings of one
      number are one dictionary key).  NaN, the infinities and the rounding
      of the decimal context (28 significant digits) are outside the model.
    - A feed message is a Python [dict]; here it is a record with one
      optional field per key the code reads.  A key that is present holds a
      value of the kind the feed documents for it.
    - A [SortedDict] is a finite map ([gmap]) read through its sorted key
      list.
    - Python's exceptions are values of [exn]; a method is a function from
      the book to a result (a value or a raised exception) and the book it
      leaves behind, which keeps whatever was mutated before a raise. *)

From Stdlib Require Import Ascii String QArith Qcanon.
From stdpp Require Import gmap strings list fin_maps numbers sorting.

Local Open Scope string_scope.
Local Open Scope list_scope.
Local Open Scope Qc_scope.

(** ** Python values *)

Abbreviation decimal := Qc.

(** A numeric field of a message.  The websocket feed delivers numbers as
    JSON text: [NumStr d] is a [str] spelling the number [d] (so never the
    empty string).  [NumDec d] is a number object of value [d]: a
    [Decimal], as [reset_book] passes, or an [int], as a JSON number
    decodes to.  Text that spells no number makes [Decimal()] raise and is
    outside the model. *)
Inductive Numeric : Type :=
  | NumStr (d : decimal)
  | NumDec (d : decimal).

(** [Decimal(v)] *)
Definition Decimal_of (v : Numeric) : decimal :=
  match v with NumStr d => d | NumDec d => d end.

(** Truth value of a numeric field: a non-empty [str] is true, a number is
    true iff it is not zero. *)
Definition truthy (v : Numeric) : bool :=
  match v with
  | NumStr _ => true
  | NumDec d => bool_decide (d ≠ 0)
  end.

(** Truth value of a [str]. *)
Definition truthy_str (s : string) : bool := bool_decide (s ≠ "").

Inductive exn : Type :=
  | KeyError (key : string)
  | KeyError_price (key : decimal)
  | IndexError
  | ValueError
  | AssertionError
  | FetchError.

Inductive result (A : Type) : Type :=
  | Ret (a : A)
  | Raise (e : exn).
Arguments Ret {A} a.
Arguments Raise {A} e.

(** What a primitive or [on_message] returns: [None], a [str], or a pair
    [(price, size)] whose price may be [None]. *)
Inductive retval : Type :=
  | RNone
  | RStr (s : string)
  | RPair (price : option decimal) (size : decimal).

(** ** Messages, orders, snapshots *)

Record Message : Type := mkMessage {
  m_sequence : option Z;
  m_type : option string;
  m_side : option string;
  m_price : option Numeric;
  m_size : option Numeric;
  m_remaining_size : option Numeric;
  m_new_size : option Numeric;
  m_order_id : option string;
  m_id : option string;
  m_maker_order_id : option string;
  m_reason : option string;
  m_product_id : option string
}.

(** The message with no key at all, to build messages from. *)
Definition empty_message : Message :=
  mkMessage None None None None None None None None None None None None.

(** The dict [add] stores in a level. *)
Record Order : Type := mkOrder {
  o_id : string;
  o_side : string;
  o_price : decimal;
  o_size : decimal
}.

Definition with_size (o : Order) (s : decimal) : Order :=
  mkOrder (o_id o) (o_side o) (o_price o) s.

#[global] Instance Order_eq_dec : EqDecision Order.
Proof. solve_decision. Defined.

(** One entry [[price, size, id]] of a level-3 snapshot. *)
Record Entry : Type := mkEntry {
  e_price : decimal;
  e_size : decimal;
  e_id : string
}.

Record Snapshot : Type := mkSnapshot {
  res_sequence : Z;
  res_bids : list Entry;
  res_asks : list Entry
}.

(** ** The book *)

Record OrderBook : Type := mkOrderBook {
  _asks : gmap decimal (list Order);
  _bids : gmap decimal (list Order);
  _client : list Snapshot;
  _sequence : Z;
  _log_to : option (list Message);
  _current_ticker : option string
}.

(** [OrderBook.__init__]: [client] lists the answers the snapshot service
    will give, in order. *)
Definition OrderBook_init (client : list Snapshot)
    (log_to : option (list Message)) : OrderBook :=
  mkOrderBook ∅ ∅ client (-1)%Z log_to None.

(** ** Methods as state transformers that may raise *)

Definition M (A : Type) : Type := OrderBook → result A * OrderBook.

Definition ret {A} (a : A) : M A := λ self, (Ret a, self).
Definition raise {A} (e : exn) : M A := λ self, (Raise e, self).
Definition bind {A B} (c : M A) (k : A → M B) : M B := λ self,
  match c self with
  | (Ret a, self') => k a self'
  | (Raise e, self') => (Raise e, self')
  end.
Definition lift {A} (r : result A) : M A := λ self, (r, self).

Declare Scope py_scope.
Delimit Scope py_scope with py.
Notation "x <- c ;; k" := (bind c (λ x, k))
  (at level 20, c at level 99, k at level 200, only parsing) : py_scope.
Notation "c ;;; k" := (bind c (λ _, k))
  (at level 100, k at level 200, right associativity, only parsing) : py_scope.
Local Open Scope py_scope.

(** [d[key]] on a message: [KeyError] when the key is absent. *)
Definition getitem {A} (key : string) (field : option A) : result A :=
  match field with
  | Some v => Ret v
  | None => Raise (KeyError key)
  end.

(** ** SortedDict *)

Section SortedDict.
Context {V : Type}.

(** The keys in ascending order ([SortedDict._list]). *)
Definition sorted_keys (d : gmap decimal V) : list decimal :=
  merge_sort Qcle (map_to_list d).*1.

(** [d.peekitem(index)]: the item at [index] of the sorted key list, with
    Python's negative indices; [IndexError] out of range. *)
Definition peekitem (d : gmap decimal V) (index : Z) : result (decimal * V) :=
  let keys := sorted_keys d in
  let n := Z.of_nat (length keys) in
  let i := if decide (index < 0)%Z then (index + n)%Z else index in
  if decide (0 ≤ i < n)%Z then
    match keys !! Z.to_nat i with
    | Some k =>
        match d !! k with
        | Some v => Ret (k, v)
        | None => Raise (KeyError_price k)
        end
    | None => Raise IndexError
    end
  else Raise IndexError.

(** [del d[key]] *)
Definition delitem (d : gmap decimal V) (key : decimal)
    : result (gmap decimal V) :=
  match d !! key with
  | Some _ => Ret (delete key d)
  | None => Raise (KeyError_price key)
  end.
End SortedDict.

(** ** Accessors of the two sides *)

Definition set_asks_field (self : OrderBook) (a : gmap decimal (list Order))
    : OrderBook :=
  mkOrderBook a (_bids self) (_client self) (_sequence self)
    (_log_to self) (_current_ticker self).

Definition set_bids_field (self : OrderBook) (b : gmap decimal (list Order))
    : OrderBook :=
  mkOrderBook (_asks self) b (_client self) (_sequence self)
    (_log_to self) (_current_ticker self).

Definition set_sequence_field (self : OrderBook) (s : Z) : OrderBook :=
  mkOrderBook (_asks self) (_bids self) (_client self) s
    (_log_to self) (_current_ticker self).

Definition set_ticker_field (self : OrderBook) (t : option string)
    : OrderBook :=
  mkOrderBook (_asks self) (_bids self) (_client self) (_sequence self)
    (_log_to self) t.

Definition get_ask : M decimal := λ self,
  (match peekitem (_asks self) 0 with
   | Ret item => Ret item.1
   | Raise e => Raise e
   end, self).

Definition get_asks (price : decimal) : M (option (list Order)) := λ self,
  (Ret (_asks self !! price), self).

Definition remove_asks (price : decimal) : M () := λ self,
  match delitem (_asks self) price with
  | Ret a => (Ret (), set_asks_field self a)
  | Raise e => (Raise e, self)
  end.

Definition set_asks (price : decimal) (asks : list Order) : M () := λ self,
  (Ret (), set_asks_field self (<[price := asks]> (_asks self))).

Definition get_bid : M decimal := λ self,
  (match peekitem (_bids self) (-1) with
   | Ret item => Ret item.1
   | Raise e => Raise e
   end, self).

Definition get_bids (price : decimal) : M (option (list Order)) := λ self,
  (Ret (_bids self !! price), self).

Definition remove_bids (price : decimal) : M () := λ self,
  match delitem (_bids self) price with
  | Ret b => (Ret (), set_bids_field self b)
  | Raise e => (Raise e, self)
  end.

Definition set_bids (price : decimal) (bids : list Order) : M () := λ self,
  (Ret (), set_bids_field self (<[price := bids]> (_bids self))).

(** ** The primitives *)

(** [is_bid_side] on a [str]: [m[0] == "b"]; indexing the empty string
    raises.  ([OrderBook] only calls it on [order['side']]; the branch for
    a dict argument is not reached from it.) *)
Definition is_bid_side (m : string) : result bool :=
  match m with
  | EmptyString => Raise IndexError
  | String c _ => Ret (bool_decide (c = "b"%char))
  end.

(** [d.get(k1) or d[k2]]: the first value when present and true, else the
    second, which must be present. *)
Definition get_or {A} (truth : A → bool) (first : option A)
    (key2 : string) (second : option A) : result A :=
  match first with
  | Some v => if truth v then Ret v else getitem key2 second
  | None => getitem key2 second
  end.

(** The order dict built at the top of [add]; the four entries are
    evaluated in this order. *)
Definition make_order (order : Message) : result Order :=
  match get_or truthy_str (m_order_id order) "id" (m_id order) with
  | Raise e => Raise e
  | Ret id =>
  match getitem "side" (m_side order) with
  | Raise e => Raise e
  | Ret side =>
  match getitem "price" (m_price order) with
  | Raise e => Raise e
  | Ret price =>
  match get_or truthy (m_size order) "remaining_size" (m_remaining_size order) with
  | Raise e => Raise e
  | Ret size => Ret (mkOrder id side (Decimal_of price) (Decimal_of size))
  end end end end.

Definition add (order : Message) : M retval :=
  order <- lift (make_order order) ;;
  (if decide (o_side order = "buy") then
     bids <- get_bids (o_price order) ;;
     match bids with
     | None => set_bids (o_price order) [order]
     | Some bids => set_bids (o_price order) (bids ++ [order])
     end
   else
     asks <- get_asks (o_price order) ;;
     match asks with
     | None => set_asks (o_price order) [order]
     | Some asks => set_asks (o_price order) (asks ++ [order])
     end) ;;;
  ret (RPair (Some (o_price order)) (o_size order)).

(** The locals of the loop of [remove]: the orders kept so far, [size],
    [price] and [found_order]. *)
Definition remove_locals : Type := list Order * decimal * decimal * bool.

(** One iteration of [for o in fbids] in [remove]. *)
Definition remove_step (removal_id : option string) (st : remove_locals)
    (o : Order) : remove_locals :=
  let '(kept, size, price, found_order) := st in
  if decide (Some (o_id o) ≠ removal_id) then
    (kept ++ [o], size, price, found_order)
  else
    (kept,
     if decide (size = 0) then o_size o else size,
     if decide (price = -1) then o_price o else price,
     true).

Definition remove (order : Message) : M retval :=
  let removal_id := m_order_id order in
  let price := Decimal_of (default (NumDec (-1)) (m_price order)) in
  let size := Decimal_of (default (NumDec 0) (m_size order)) in
  side <- lift (getitem "side" (m_side order)) ;;
  locals <-
    (if decide (side = "buy") then
       fbids <- get_bids price ;;
       match fbids with
       | Some fbids =>
           let '(bids, size, price, found_order) :=
             foldl (remove_step removal_id) ([], size, price, false) fbids in
           (if decide (0 < length bids)%nat then set_bids price bids
            else remove_bids price) ;;;
           ret (size, price, found_order)
       | None => ret (size, price, false)
       end
     else
       fasks <- get_asks price ;;
       match fasks with
       | Some fasks =>
           let '(asks, size, price, found_order) :=
             foldl (remove_step removal_id) ([], size, price, false) fasks in
           (if decide (0 < length asks)%nat then set_asks price asks
            else remove_asks price) ;;;
           ret (size, price, found_order)
       | None => ret (size, price, false)
       end) ;;
  let '(size, price, found_order) := locals in
  let size := if found_order then size else 0 in
  let price := if decide (price = -1) then None else Some price in
  ret (RPair price (- size)).

(** [assert c] *)
Definition assert (c : bool) : M () :=
  if c then ret () else raise AssertionError.

Definition match_ (order : Message) : M retval :=
  size <- lift (getitem "size" (m_size order)) ;;
  let size := Decimal_of size in
  price <- lift (getitem "price" (m_price order)) ;;
  let price := Decimal_of price in
  side <- lift (getitem "side" (m_side order)) ;;
  if decide (side = "buy") then
    bids <- get_bids price ;;
    match bids with
    | None | Some [] => ret (RStr "Failed to find bids at this price for match")
    | Some (b0 :: rest) =>
        maker <- lift (getitem "maker_order_id" (m_maker_order_id order)) ;;
        assert (bool_decide (o_id b0 = maker)) ;;;
        (if decide (o_size b0 = size) then set_bids price rest
         else set_bids price (with_size b0 (o_size b0 - size) :: rest)) ;;;
        ret (RPair (Some price) (- size))
    end
  else
    asks <- get_asks price ;;
    match asks with
    | None | Some [] => ret (RStr "Failed to find asks at this price for match")
    | Some (a0 :: rest) =>
        maker <- lift (getitem "maker_order_id" (m_maker_order_id order)) ;;
        assert (bool_decide (o_id a0 = maker)) ;;;
        (if decide (o_size a0 = size) then set_asks price rest
         else set_asks price (with_size a0 (o_size a0 - size) :: rest)) ;;;
        ret (RPair (Some price) (- size))
    end.

(** [any(o['id'] == order['order_id'] for o in level)]: the key is read at
    the first order, so a missing key goes unnoticed on an empty level. *)
Definition any_id (order : Message) (level : list Order) : result bool :=
  match level with
  | [] => Ret false
  | _ :: _ =>
      match getitem "order_id" (m_order_id order) with
      | Ret oid => Ret (bool_decide (Exists (λ o, o_id o = oid) level))
      | Raise e => Raise e
      end
  end.

(** [level is None or not any(...)] *)
Definition missing_in (order : Message) (level : option (list Order))
    : result bool :=
  match level with
  | None => Ret true
  | Some l =>
      match any_id order l with
      | Ret b => Ret (negb b)
      | Raise e => Raise e
      end
  end.

(** [level[[o['id'] for o in level].index(oid)]['size'] = new_size], with
    the size that was there; [None] stands for the [ValueError] of [index],
    which the guard before it excludes. *)
Definition resize (oid : string) (new_size : decimal) (level : list Order)
    : option (decimal * list Order) :=
  match list_find (λ o, o_id o = oid) level with
  | Some (index, o) => Some (o_size o, <[index := with_size o new_size]> level)
  | None => None
  end.

(** The end of [change], after either side's branch: the level is looked
    up again on the side [is_bid_side] names. *)
Definition change_check (order : Message) (side : string)
    (price new_size old_size : decimal) : M retval :=
  bid_side <- lift (is_bid_side side) ;;
  node <- (if (bid_side : bool) then get_bids price else get_asks price) ;;
  absent <- lift (missing_in order node) ;;
  if (absent : bool) then
    ret (RStr "Failed to find node at this price for change")
  else
    let size_change := new_size - old_size in
    ret (RPair (Some price) size_change).

Definition change (order : Message) : M retval :=
  match m_new_size order with
  | None => ret (RStr "Failed to find new size at this price for change")
  | Some new_size =>
  let new_size := Decimal_of new_size in
  match m_price order with
  | None => ret (RStr "Failed to find new price for change")
  | Some price =>
  let price := Decimal_of price in
  side <- lift (getitem "side" (m_side order)) ;;
  if decide (side = "buy") then
    bids <- get_bids price ;;
    absent <- lift (missing_in order bids) ;;
    if (absent : bool) then
      ret (RStr "Failed to find bids at this price for change")
    else
      oid <- lift (getitem "order_id" (m_order_id order)) ;;
      match resize oid new_size (default [] bids) with
      | None => raise ValueError
      | Some (old_size, bids) =>
          set_bids price bids ;;;
          change_check order side price new_size old_size
      end
  else
    asks <- get_asks price ;;
    absent <- lift (missing_in order asks) ;;
    if (absent : bool) then
      ret (RStr "Failed to find asks at this price for change")
    else
      oid <- lift (getitem "order_id" (m_order_id order)) ;;
      match resize oid new_size (default [] asks) with
      | None => raise ValueError
      | Some (old_size, asks) =>
          set_asks price asks ;;;
          change_check order side price new_size old_size
      end
  end end.

(** ** Resynchronisation and the event handler *)

(** Modelled from the spec: [PublicClient.get_product_order_book] of
    [cbpro/public_client.py], the snapshot service ("SyncProvider:
    snapshot(product_id) -> {sequence, bids:[(price,size,order_id)],
    asks:[(price,size,order_id)]}"; a failed fetch propagates to the
    caller).  Each call takes the next answer of [_client]; no answer left
    is a failed fetch. *)
Definition get_product_order_book : M Snapshot := λ self,
  match _client self with
  | res :: rest =>
      (Ret res,
       mkOrderBook (_asks self) (_bids self) rest (_sequence self)
         (_log_to self) (_current_ticker self))
  | [] => (Raise FetchError, self)
  end.

(** [for x in l: body(x)] *)
Fixpoint for_each {A B} (body : A → M B) (l : list A) : M () :=
  match l with
  | [] => ret ()
  | x :: l => body x ;;; for_each body l
  end.

(** The dict [reset_book] hands to [add] for a snapshot entry. *)
Definition entry_message (side : string) (e : Entry) : Message :=
  mkMessage None None (Some side) (Some (NumDec (e_price e)))
    (Some (NumDec (e_size e))) None None None (Some (e_id e)) None None None.

Definition clear_sides : M () := λ self,
  (Ret (), set_bids_field (set_asks_field self ∅) ∅).

Definition set_sequence (s : Z) : M () := λ self,
  (Ret (), set_sequence_field self s).

Definition reset_book : M () :=
  clear_sides ;;;
  res <- get_product_order_book ;;
  for_each (λ bid, add (entry_message "buy" bid)) (res_bids res) ;;;
  for_each (λ ask, add (entry_message "sell" ask)) (res_asks res) ;;;
  set_sequence (res_sequence res).

Definition on_open : M () := set_sequence (-1).

Definition on_sequence_gap (gap_start gap_end : Z) : M () :=
  reset_book.

(** [if self._log_to: pickle.dump(message, self._log_to)] *)
Definition log_message (message : Message) : M () := λ self,
  (Ret (),
   mkOrderBook (_asks self) (_bids self) (_client self) (_sequence self)
     ((λ log, log ++ [message]) <$> _log_to self) (_current_ticker self)).

(** The dispatch on [message['type']] in [on_message]. *)
Definition dispatch (msg_type : string) (message : Message) : M retval :=
  if decide (msg_type = "open") then add message
  else if decide (msg_type = "done" ∧ is_Some (m_price message)) then
    remove message
  else if decide (msg_type = "done" ∧ m_reason message = Some "filled") then
    remove message
  else if decide (msg_type = "match") then match_ message
  else if decide (msg_type = "change") then change message
  else if decide (msg_type = "received") then ret RNone
  else ret (RStr "Untreated message type").

Definition on_message (message : Message) : M retval :=
  log_message message ;;;
  let sequence := default (-1)%Z (m_sequence message) in
  λ self,
  if decide (_sequence self = -1)%Z then
    (reset_book ;;; ret (RStr "Reset book due to negative sequence")) self
  else if decide (sequence ≤ _sequence self)%Z then
    (Ret (RStr "Current book sequence beyond this order"), self)
  else if decide (sequence > _sequence self + 1)%Z then
    (on_sequence_gap (_sequence self) sequence ;;;
     ret (RStr "Sequence gap to this order")) self
  else
    (msg_type <- lift (getitem "type" (m_type message)) ;;
     book_change <- dispatch msg_type message ;;
     (λ self, (Ret (), set_ticker_field self (m_product_id message))) ;;;
     set_sequence sequence ;;;
     ret book_change) self.

(** The handler applied to the messages of a feed, one after the other,
    up to the first exception. *)
Fixpoint run (messages : list Message) (self : OrderBook)
    : result (list retval) * OrderBook :=
  match messages with
  | [] => (Ret [], self)
  | m :: rest =>
      match on_message m self with
      | (Ret r, self') =>
          match run rest self' with
          | (Ret rs, self'') => (Ret (r :: rs), self'')
          | (Raise e, self'') => (Raise e, self'')
          end
      | (Raise e, self') => (Raise e, self')
      end
  end.

(** ** Reading the book *)

Definition get_current_ticker : M (option string) := λ self,
  (Ret (_current_ticker self), self).

(** The row [[order['price'], order['size'], order['id']]] of a dump. *)
Definition order_row (order : Order) : Entry :=
  mkEntry (o_price order) (o_size order) (o_id order).

(** One side of [get_current_book]: the outer loop walks the keys in
    ascending order, the inner loop appends the rows of the level; a key
    that is gone when it is read ([KeyError]) is skipped. *)
Definition dump_side (d : gmap decimal (list Order)) : list Entry :=
  foldl (λ rows key,
           match d !! key with
           | Some level =>
               foldl (λ rows order, rows ++ [order_row order]) rows level
           | None => rows
           end)
    [] (sorted_keys d).

(** [get_current_book]: the dict with keys sequence, asks and bids, the
    shape of a snapshot. *)
Definition get_current_book : M Snapshot := λ self,
  (Ret (mkSnapshot (_sequence self) (dump_side (_bids self))
          (dump_side (_asks self))), self).

(** ** Vocabulary of the statements *)

(** The index a primitive works on for a given [side]: every primitive
    tests [side == 'buy'] and takes the asks otherwise. *)
Definition side_index (side : string) (self : OrderBook)
    : gmap decimal (list Order) :=
  if decide (side = "buy") then _bids self else _asks self.

Definition set_side_index (side : string) (self : OrderBook)
    (index : gmap decimal (list Order)) : OrderBook :=
  if decide (side = "buy") then set_bids_field self index
  else set_asks_field self index.

(** The index with [o] put at the tail of the queue at its price, in a new
    queue when there is none. *)
Definition enqueue (index : gmap decimal (list Order)) (o : Order)
    : gmap decimal (list Order) :=
  <[o_price o := default [] (index !! o_price o) ++ [o]]> index.

(** The order [add] builds for a snapshot entry. *)
Definition entry_order (side : string) (e : Entry) : Order :=
  mkOrder (e_id e) side (e_price e) (e_size e).

(** The level of a snapshot side at [price]: the orders of the entries at
    that price, in the order of the snapshot; no level when there is no
    such entry. *)
Definition snapshot_level (side : string) (entries : list Entry)
    (price : decimal) : option (list Order) :=
  match filter (λ e, e_price e = price) entries with
  | [] => None
  | level => Some (entry_order side <$> level)
  end.

(** A numeric field that is JSON text. *)
Definition is_text (v : Numeric) : Prop :=
  match v with
  | NumStr _ => True
  | NumDec _ => False
  end.

(** The events [add] is called on: [on_message] hands it feed messages,
    whose size is JSON text, and [reset_book] hands it snapshot entries,
    which have a size and no remaining_size. *)
Definition event_of_add (order : Message) : Prop :=
  (∀ size, m_size order = Some size → is_text size) ∨
  m_remaining_size order = None.

(** No price of the index maps to an empty queue. *)
Definition no_empty_level (index : gmap decimal (list Order)) : Prop :=
  ∀ price, index !! price ≠ Some [].

(** Neither side of the book has an empty level. *)
Definition book_ok (self : OrderBook) : Prop :=
  no_empty_level (_bids self) ∧ no_empty_level (_asks self).

(** [c] keeps the invariant [I] of the book, whether it returns or
    raises. *)
Definition preserves {A} (I : OrderBook → Prop) (c : M A) : Prop :=
  ∀ self, I self → I (c self).2.

(** The book once the message is logged. *)
Definition logged (message : Message) (self : OrderBook) : OrderBook :=
  (log_message message self).2.

(** ** A concrete book and feed

    A snapshot at sequence 10 with one bid, order a (2 at 100), and one
    ask, order b (3 at 101), and the messages that follow it. *)

Definition dec (n : Z) : decimal := Q2Qc (inject_Z n).

Definition order_a : Order := mkOrder "a" "buy" (dec 100) (dec 2).
Definition order_b : Order := mkOrder "b" "sell" (dec 101) (dec 3).
Definition order_c : Order := mkOrder "c" "buy" (dec 100) (dec 1).

Definition snap10 : Snapshot :=
  mkSnapshot 10 [mkEntry (dec 100) (dec 2) "a"] [mkEntry (dec 101) (dec 3) "b"].

Definition snap20 : Snapshot :=
  mkSnapshot 20
    [mkEntry (dec 99) (dec 1) "d"; mkEntry (dec 98) (dec 1) "f";
     mkEntry (dec 99) (dec 4) "e"]
    [mkEntry (dec 102) (dec 1) "g"].

(** A book just constructed, whose snapshot service will answer [snap10]. *)
Definition book0 : OrderBook := OrderBook_init [snap10] None.

(** The book [snap10] describes; its snapshot service would answer
    [snap20]. *)
Definition book10 : OrderBook :=
  mkOrderBook {[dec 101 := [order_b]]} {[dec 100 := [order_a]]}
    [snap20] 10 None None.

(** [book10] after order c (1 at 100) was opened behind order a. *)
Definition book11 : OrderBook :=
  mkOrderBook {[dec 101 := [order_b]]} {[dec 100 := [order_a; order_c]]}
    [snap20] 11 None None.

(** Messages as the feed sends them: numbers are JSON text. *)
Definition feed_message (sequence : Z) (type side : string) : Message :=
  mkMessage (Some sequence) (Some type) (Some side) None None None None
    None None None None (Some "BTC-USD").

Definition with_price (price : Numeric) (m : Message) : Message :=
  mkMessage (m_sequence m) (m_type m) (m_side m) (Some price) (m_size m)
    (m_remaining_size m) (m_new_size m) (m_order_id m) (m_id m)
    (m_maker_order_id m) (m_reason m) (m_product_id m).

Definition with_msg_size (size : Numeric) (m : Message) : Message :=
  mkMessage (m_sequence m) (m_type m) (m_side m) (m_price m) (Some size)
    (m_remaining_size m) (m_new_size m) (m_order_id m) (m_id m)
    (m_maker_order_id m) (m_reason m) (m_product_id m).

Definition with_remaining_size (size : Numeric) (m : Message) : Message :=
  mkMessage (m_sequence m) (m_type m) (m_side m) (m_price m) (m_size m)
    (Some size) (m_new_size m) (m_order_id m) (m_id m)
    (m_maker_order_id m) (m_reason m) (m_product_id m).

Definition with_new_size (size : Numeric) (m : Message) : Message :=
  mkMessage (m_sequence m) (m_type m) (m_side m) (m_price m) (m_size m)
    (m_remaining_size m) (Some size) (m_order_id m) (m_id m)
    (m_maker_order_id m) (m_reason m) (m_product_id m).

Definition with_order_id (oid : string) (m : Message) : Message :=
  mkMessage (m_sequence m) (m_type m) (m_side m) (m_price m) (m_size m)
    (m_remaining_size m) (m_new_size m) (Some oid) (m_id m)
    (m_maker_order_id m) (m_reason m) (m_product_id m).

Definition with_maker (oid : string) (m : Message) : Message :=
  mkMessage (m_sequence m) (m_type m) (m_side m) (m_price m) (m_size m)
    (m_remaining_size m) (m_new_size m) (m_order_id m) (m_id m)
    (Some oid) (m_reason m) (m_product_id m).

Definition with_reason (reason : string) (m : Message) : Message :=
  mkMessage (m_sequence m) (m_type m) (m_side m) (m_price m) (m_size m)
    (m_remaining_size m) (m_new_size m) (m_order_id m) (m_id m)
    (m_maker_order_id m) (Some reason) (m_product_id m).

(** open: order c, 1 at 100, buy. *)
Definition open_c (sequence : Z) : Message :=
  with_order_id "c" (with_remaining_size (NumStr (dec 1))
    (with_price (NumStr (dec 100)) (feed_message sequence "open" "buy"))).

(** match: [size] at 100 against the maker. *)
Definition match_at_100 (sequence : Z) (maker : string) (size : Z)
    : Message :=
  with_maker maker (with_msg_size (NumStr (dec size))
    (with_price (NumStr (dec 100)) (feed_message sequence "match" "buy"))).

(** done, filled, without a price: order a. *)
Definition done_a_no_price (sequence : Z) : Message :=
  with_reason "filled" (with_order_id "a" (feed_message sequence "done" "buy")).

(** change: order c at 100 resized to 3. *)
Definition change_c (sequence : Z) : Message :=
  with_new_size (NumStr (dec 3)) (with_order_id "c"
    (with_price (NumStr (dec 100)) (feed_message sequence "change" "buy"))).

(** An open event with neither size nor remaining_size. *)
Definition open_without_size (sequence : Z) : Message :=
  with_order_id "c"
    (with_price (NumStr (dec 100)) (feed_message sequence "open" "buy")).


(** An open event whose absolute size is the number zero and whose
    remaining size is 5. *)
Definition open_zero_size (sequence : Z) : Message :=
  with_order_id "z" (with_remaining_size (NumStr (dec 5))
    (with_msg_size (NumDec 0)
      (with_price (NumStr (dec 100)) (feed_message sequence "open" "buy")))).

(** ** Vocabulary of the further properties *)

(** The rows [get_current_book] prints for the level at [key]. *)
Definition level_rows (d : gmap decimal (list Order)) (key : decimal)
    : list Entry :=
  order_row <$> default [] (d !! key).

(** The size resting in a queue: the sum of the sizes of its orders. *)
Definition depth (level : list Order) : decimal :=
  foldr (λ o total, o_size o + total) 0 level.

(** What the primitives leave alone: everything but the two sides. *)
Definition frame (self : OrderBook)
    : Z * list Snapshot * option (list Message) * option string :=
  (_sequence self, _client self, _log_to self, _current_ticker self).

(** The size [remove] reports after meeting the orders [matched]: each one
    replaces a size that is still zero. *)
Definition take_size (size : decimal) (matched : list Order) : decimal :=
  foldl (λ size o, if decide (size = 0) then o_size o else size) size matched.

(** Every order of a side rests at the key of its own price. *)
Definition side_keyed (d : gmap decimal (list Order)) : Prop :=
  ∀ p level, d !! p = Some level → Forall (λ o, o_price o = p) level.

Definition book_keyed (self : OrderBook) : Prop :=
  side_keyed (_bids self) ∧ side_keyed (_asks self).

(** A side a resync can rebuild from its dump: levels are not empty, and
    each order rests at its own price, carries the side's name and a size
    other than zero. *)
Definition side_loadable (side : string) (d : gmap decimal (list Order))
    : Prop :=
  ∀ p level, d !! p = Some level →
    level ≠ [] ∧
    Forall (λ o, o_price o = p ∧ o_side o = side ∧ o_size o ≠ 0) level.

(** The messages of a feed that follows the book without a gap: the
    [i]-th one carries the sequence [start + 1 + i]. *)
Definition consecutive (start : Z) (messages : list Message) : Prop :=
  ∀ (i : nat) m, messages !! i = Some m →
    m_sequence m = Some (start + 1 + Z.of_nat i)%Z.

(** [book10] when the snapshot service has no answer left. *)
Definition book_offline : OrderBook :=
  mkOrderBook {[dec 101 := [order_b]]} {[dec 100 := [order_a]]}
    [] 10 None None.

(** A snapshot whose second bid has size zero, and [book10] when the
    service would answer it. *)
Definition snap_zero : Snapshot :=
  mkSnapshot 20 [mkEntry (dec 99) (dec 1) "d"; mkEntry (dec 98) 0 "f"] [].

Definition book_zero : OrderBook :=
  mkOrderBook {[dec 101 := [order_b]]} {[dec 100 := [order_a]]}
    [snap_zero] 10 None None.

(** The dump of [book11], and a fresh book whose service answers it. *)
Definition dump11 : Snapshot :=
  mkSnapshot 11
    [mkEntry (dec 100) (dec 2) "a"; mkEntry (dec 100) (dec 1) "c"]
    [mkEntry (dec 101) (dec 3) "b"].

Definition book_from_dump : OrderBook := OrderBook_init [dump11] None.

(** open: order h, 1 at 105, buy; and order k, 2 at 99, sell. *)
Definition open_h (sequence : Z) : Message :=
  with_order_id "h" (with_remaining_size (NumStr (dec 1))
    (with_price (NumStr (dec 105)) (feed_message sequence "open" "buy"))).

Definition open_k (sequence : Z) : Message :=
  with_order_id "k" (with_remaining_size (NumStr (dec 2))
    (with_price (NumStr (dec 99)) (feed_message sequence "open" "sell"))).

(** A feed that follows [book10]: open c, match a for 2, change c to 3. *)
Definition feed13 : list Message :=
  [open_c 11; match_at_100 12 "a" 2; change_c 13].

(** done: order [oid] at [price], as the feed sends it after a fill. *)
Definition done_at (sequence : Z) (oid : string) (price : Z) : Message :=
  with_price (NumStr (dec price))
    (with_reason "filled" (with_order_id oid (feed_message sequence "done" "buy"))).

(** * Properties *)

Ltac unfold_M :=
  unfold bind, ret, raise, lift, assert, get_bids, get_asks, set_bids,
    set_asks, remove_bids, remove_asks, set_sequence in *.

(** ** The four cases of the handler *)

Lemma on_message_uninitialised (self : OrderBook) (message : Message) :
  _sequence self = (-1)%Z →
  on_message message self =
    (reset_book ;;; ret (RStr "Reset book due to negative sequence"))
      (logged message self).
Proof.
  intros Hseq. unfold on_message, bind at 1, logged, log_message. simpl.
  by rewrite decide_True.
Qed.

Lemma on_message_stale (self : OrderBook) (message : Message) :
  _sequence self ≠ (-1)%Z →
  (default (-1) (m_sequence message) ≤ _sequence self)%Z →
  on_message message self =
    (Ret (RStr "Current book sequence beyond this order"),
     logged message self).
Proof.
  intros Hinit Hstale. unfold on_message, bind at 1, logged, log_message.
  simpl. rewrite decide_False by done. by rewrite decide_True.
Qed.

Lemma on_message_gap (self : OrderBook) (message : Message) :
  _sequence self ≠ (-1)%Z →
  (default (-1) (m_sequence message) > _sequence self + 1)%Z →
  on_message message self =
    (on_sequence_gap (_sequence self) (default (-1)%Z (m_sequence message)) ;;;
     ret (RStr "Sequence gap to this order")) (logged message self).
Proof.
  intros Hinit Hgap. unfold on_message, bind at 1, logged, log_message.
  simpl. rewrite decide_False by done. rewrite decide_False by lia.
  by rewrite decide_True.
Qed.

Lemma on_message_in_order (self : OrderBook) (message : Message) :
  _sequence self ≠ (-1)%Z →
  default (-1)%Z (m_sequence message) = (_sequence self + 1)%Z →
  on_message message self =
    (msg_type <- lift (getitem "type" (m_type message)) ;;
     book_change <- dispatch msg_type message ;;
     (λ self, (Ret (), set_ticker_field self (m_product_id message))) ;;;
     set_sequence (_sequence self + 1) ;;;
     ret book_change) (logged message self).
Proof.
  intros Hinit Hnext. unfold on_message, bind at 1, logged, log_message.
  simpl. rewrite Hnext. rewrite decide_False by done.
  rewrite decide_False by lia. by rewrite decide_False by lia.
Qed.

(** ** Stale messages *)

(** C5. On a book whose sequence is not -1, a message whose sequence is at
    most the book's returns 'Current book sequence beyond this order' and
    leaves the bids, the asks and the sequence (and the snapshot client and
    the ticker) as they were. *)
Theorem stale_message_ignored (self : OrderBook) (message : Message) :
  _sequence self ≠ (-1)%Z →
  (default (-1) (m_sequence message) ≤ _sequence self)%Z →
  let out := on_message message self in
  out.1 = Ret (RStr "Current book sequence beyond this order") ∧
  _bids out.2 = _bids self ∧
  _asks out.2 = _asks self ∧
  _sequence out.2 = _sequence self ∧
  _client out.2 = _client self ∧
  _current_ticker out.2 = _current_ticker self.
Proof.
  intros Hinit Hstale out. subst out.
  by rewrite on_message_stale.
Qed.

(** ** Removal without a price *)

Lemma remove_at_sentinel (self : OrderBook) (order : Message)
    (side : string) :
  m_price order = None →
  m_side order = Some side →
  _bids self !! (-1) = None →
  _asks self !! (-1) = None →
  remove order self = (Ret (RPair None 0), self).
Proof.
  intros Hprice Hside Hbids Hasks. unfold remove. rewrite Hprice, Hside.
  unfold_M. simpl.
  destruct (decide (side = "buy")); simpl.
  - by rewrite Hbids.
  - by rewrite Hasks.
Qed.

(** C10. On a book with no level at the sentinel price -1, [remove] of an
    event without a price returns [(None, 0)] and leaves the book as it
    was, whatever order ids rest in it.  So does [on_message] when such an
    event arrives in order as a done message with reason filled: the
    result is [(None, 0)] and both sides are as they were. *)
Theorem remove_without_price (self : OrderBook) (order : Message)
    (side : string) :
  m_price order = None →
  m_side order = Some side →
  _bids self !! (-1) = None →
  _asks self !! (-1) = None →
  remove order self = (Ret (RPair None 0), self) ∧
  (_sequence self ≠ (-1)%Z →
   default (-1)%Z (m_sequence order) = (_sequence self + 1)%Z →
   m_type order = Some "done" →
   m_reason order = Some "filled" →
   let out := on_message order self in
   out.1 = Ret (RPair None 0) ∧
   _bids out.2 = _bids self ∧
   _asks out.2 = _asks self ∧
   _sequence out.2 = (_sequence self + 1)%Z).
Proof.
  intros Hprice Hside Hbids Hasks.
  split; [by eapply remove_at_sentinel|].
  intros Hinit Hnext Htype Hreason out.
  assert (on_message order self =
            (Ret (RPair None 0),
             set_sequence_field
               (set_ticker_field (logged order self) (m_product_id order))
               (_sequence self + 1))) as Happly.
  { rewrite on_message_in_order by done. rewrite Htype.
    unfold bind at 1, lift, getitem. unfold bind at 1, dispatch.
    rewrite decide_False by done.
    rewrite decide_False by (rewrite Hprice; by intros [_ [? ?]]).
    rewrite decide_True by done.
    by rewrite (remove_at_sentinel (logged order self) order side). }
  subst out. by rewrite Happly.
Qed.

(** ** Matches against a level whose head is another order *)

(** C7. A match event with size, price, side and maker_order_id: when the
    level at the traded price on the event's side is not empty and its
    head order is not the maker, [match] raises [AssertionError] and
    touches nothing; when there is no level at that price, it returns a
    diagnostic string instead. *)
Theorem match_maker_not_head (self : OrderBook) (order : Message)
    (size price : Numeric) (side maker : string) :
  m_size order = Some size →
  m_price order = Some price →
  m_side order = Some side →
  m_maker_order_id order = Some maker →
  (∀ b0 rest,
     side_index side self !! Decimal_of price = Some (b0 :: rest) →
     o_id b0 ≠ maker →
     match_ order self = (Raise AssertionError, self)) ∧
  (side_index side self !! Decimal_of price = None →
   match_ order self =
     (Ret (RStr (if decide (side = "buy")
                 then "Failed to find bids at this price for match"
                 else "Failed to find asks at this price for match")),
      self)).
Proof.
  intros Hsize Hprice Hside Hmaker. unfold match_, side_index.
  rewrite Hsize, Hprice, Hside, Hmaker. unfold_M. simpl.
  split.
  - intros b0 rest Hlevel Hne.
    destruct (decide (side = "buy")); rewrite Hlevel; simpl;
      by rewrite bool_decide_eq_false_2.
  - intros Hlevel. destruct (decide (side = "buy")); by rewrite Hlevel.
Qed.

(** ** The best prices *)

Section SortedDict_facts.
Context {V : Type}.
Implicit Types (d : gmap decimal V) (k : decimal).

Lemma sorted_keys_elem d k : k ∈ sorted_keys d ↔ is_Some (d !! k).
Proof.
  unfold sorted_keys. rewrite merge_sort_Permutation, list_elem_of_fmap.
  split.
  - intros [[k' v] [-> Hin]]. apply elem_of_map_to_list in Hin. by exists v.
  - intros [v Hv]. exists (k, v). split; [done|].
    by apply elem_of_map_to_list.
Qed.

Lemma sorted_keys_sorted d : StronglySorted Qcle (sorted_keys d).
Proof. apply StronglySorted_merge_sort; apply _. Qed.

Lemma sorted_keys_empty d : d = ∅ → sorted_keys d = [].
Proof. intros ->. unfold sorted_keys. by rewrite map_to_list_empty. Qed.

Lemma sorted_keys_nonempty d : d ≠ ∅ → sorted_keys d ≠ [].
Proof.
  intros Hne Hnil. apply Hne, map_eq. intros k. rewrite lookup_empty.
  destruct (d !! k) as [v|] eqn:Hk; [|done].
  assert (k ∈ sorted_keys d) as Hin by (apply sorted_keys_elem; eauto).
  rewrite Hnil in Hin. by apply not_elem_of_nil in Hin.
Qed.

Lemma StronglySorted_last_max (l : list decimal) (x : decimal) :
  StronglySorted Qcle l → last l = Some x → ∀ y, y ∈ l → y ≤ x.
Proof.
  induction 1 as [|a l Hsorted IH Hall]; [done|].
  intros Hlast y Hy. destruct l as [|b l].
  - simplify_eq/=. apply list_elem_of_singleton in Hy as ->.
    apply Qcle_refl.
  - rewrite last_cons_cons in Hlast.
    apply elem_of_cons in Hy as [->|Hy]; [|by apply IH].
    rewrite Forall_forall in Hall.
    eapply Qcle_trans; [apply (Hall b); by left|].
    apply IH; [done|by left].
Qed.

Lemma peekitem_empty d (index : Z) :
  d = ∅ → peekitem d index = Raise IndexError.
Proof.
  intros Hd. unfold peekitem. rewrite (sorted_keys_empty d Hd). simpl.
  repeat case_decide; done || lia.
Qed.

Lemma peekitem_first d :
  d ≠ ∅ →
  ∃ k v, peekitem d 0 = Ret (k, v) ∧ d !! k = Some v ∧
         ∀ q, is_Some (d !! q) → k ≤ q.
Proof.
  intros Hne. unfold peekitem.
  pose proof (sorted_keys_nonempty d Hne) as Hkeys.
  pose proof (sorted_keys_sorted d) as Hsorted.
  pose proof (sorted_keys_elem d) as Helem.
  destruct (sorted_keys d) as [|k keys]; [done|]. simpl.
  destruct (proj1 (Helem k)) as [v Hv]; [by left|].
  exists k, v. rewrite Hv. split; [done|]. split; [done|].
  intros q Hq. apply Helem, elem_of_cons in Hq as [->|Hq].
  - apply Qcle_refl.
  - apply StronglySorted_inv in Hsorted as [_ Hall].
    rewrite Forall_forall in Hall. by apply Hall.
Qed.

Lemma peekitem_last d :
  d ≠ ∅ →
  ∃ k v, peekitem d (-1) = Ret (k, v) ∧ d !! k = Some v ∧
         ∀ q, is_Some (d !! q) → q ≤ k.
Proof.
  intros Hne. unfold peekitem.
  pose proof (sorted_keys_nonempty d Hne) as Hkeys.
  pose proof (sorted_keys_sorted d) as Hsorted.
  pose proof (sorted_keys_elem d) as Helem.
  pose proof (last_lookup (sorted_keys d)) as Hlast.
  assert (0 < length (sorted_keys d))%nat as Hlen
    by (destruct (sorted_keys d); [done|simpl; lia]).
  cbv zeta. rewrite (decide_True (P := (-1 < 0)%Z)) by lia.
  rewrite decide_True by lia.
  replace (Z.to_nat (-1 + Z.of_nat (length (sorted_keys d))))
    with (pred (length (sorted_keys d))) by lia.
  rewrite <- Hlast.
  destruct (last (sorted_keys d)) as [k|] eqn:Hk.
  - destruct (proj1 (Helem k)) as [v Hv].
    { apply last_Some in Hk as [l' ->]. apply elem_of_app. right. by left. }
    exists k, v. rewrite Hv. split; [done|]. split; [done|].
    intros q Hq. apply (StronglySorted_last_max _ _ Hsorted Hk).
    by apply Helem.
  - rewrite last_None in Hk. done.
Qed.
End SortedDict_facts.

(** C3. [get_bid] returns the highest price of the bids and [get_ask] the
    lowest price of the asks; each raises [IndexError] (the book's
    empty-side failure) when its side has no level.  Neither changes the
    book. *)
Theorem best_prices (self : OrderBook) :
  (_bids self = ∅ → get_bid self = (Raise IndexError, self)) ∧
  (_bids self ≠ ∅ →
   ∃ p, get_bid self = (Ret p, self) ∧ is_Some (_bids self !! p) ∧
        ∀ q, is_Some (_bids self !! q) → q ≤ p) ∧
  (_asks self = ∅ → get_ask self = (Raise IndexError, self)) ∧
  (_asks self ≠ ∅ →
   ∃ p, get_ask self = (Ret p, self) ∧ is_Some (_asks self !! p) ∧
        ∀ q, is_Some (_asks self !! q) → p ≤ q).
Proof.
  unfold get_bid, get_ask. repeat split.
  - intros Hempty. by rewrite (peekitem_empty _ _ Hempty).
  - intros Hne. destruct (peekitem_last _ Hne) as (k & v & -> & Hk & Hmax).
    exists k. eauto.
  - intros Hempty. by rewrite (peekitem_empty _ _ Hempty).
  - intros Hne. destruct (peekitem_first _ Hne) as (k & v & -> & Hk & Hmin).
    exists k. eauto.
Qed.

(** ** Change *)

Lemma any_id_found (order : Message) (oid : string) (level : list Order) :
  m_order_id order = Some oid →
  Exists (λ o, o_id o = oid) level →
  any_id order level = Ret true.
Proof.
  intros Hoid Hex. unfold any_id. rewrite Hoid. simpl.
  destruct level; [by apply Exists_nil in Hex|].
  by rewrite bool_decide_eq_true_2.
Qed.

Lemma any_id_not_found (order : Message) (oid : string)
    (level : list Order) :
  m_order_id order = Some oid →
  Forall (λ o, o_id o ≠ oid) level →
  any_id order level = Ret false.
Proof.
  intros Hoid Hall. unfold any_id. rewrite Hoid. simpl.
  destruct level; [done|].
  rewrite bool_decide_eq_false_2; [done|].
  by apply Forall_not_Exists.
Qed.

Lemma resize_first (oid : string) (new_size : decimal) (level : list Order)
    (i : nat) (o : Order) :
  level !! i = Some o →
  o_id o = oid →
  (∀ j o', level !! j = Some o' → o_id o' = oid → (i ≤ j)%nat) →
  resize oid new_size level =
    Some (o_size o, <[i := with_size o new_size]> level).
Proof.
  intros Hi Hid Hfirst. unfold resize.
  assert (list_find (λ o, o_id o = oid) level = Some (i, o)) as ->; [|done].
  apply list_find_Some. repeat split; [done..|].
  intros j y Hj Hlt Hy. specialize (Hfirst j y Hj Hy). lia.
Qed.

Lemma resize_keeps_ids (level : list Order) (i : nat) (o : Order)
    (new_size : decimal) :
  level !! i = Some o →
  o_id <$> <[i := with_size o new_size]> level = o_id <$> level.
Proof.
  intros Hi. rewrite list_fmap_insert. simpl.
  apply list_insert_id. by rewrite list_lookup_fmap, Hi.
Qed.

(** C9. A change event with new_size, price, order_id and a side that is
    'buy' or 'sell'.  If no order of that id rests at that price on that
    side, [change] returns a diagnostic string and the book is as it was.
    Otherwise, with [o] the first order of that id in the level, at
    position [i]: the level becomes the same queue with, at position [i],
    the order whose size is new_size and whose id, side and price are those
    of [o]; every other position holds the order it held (same length,
    same ids at the same positions), nothing else in the book changes, and
    [change] returns [(price, new_size - old_size)]. *)
Theorem change_resizes_in_place (self : OrderBook) (order : Message)
    (new_size price : Numeric) (side oid : string) :
  m_new_size order = Some new_size →
  m_price order = Some price →
  m_side order = Some side →
  m_order_id order = Some oid →
  side = "buy" ∨ side = "sell" →
  let p := Decimal_of price in
  let index := side_index side self in
  ((∀ level, index !! p = Some level → Forall (λ o, o_id o ≠ oid) level) →
   ∃ diagnostic, change order self = (Ret (RStr diagnostic), self)) ∧
  (∀ level i o,
     index !! p = Some level →
     level !! i = Some o →
     o_id o = oid →
     (∀ j o', level !! j = Some o' → o_id o' = oid → (i ≤ j)%nat) →
     let level' :=
       <[i := mkOrder (o_id o) (o_side o) (o_price o) (Decimal_of new_size)]>
         level in
     change order self =
       (Ret (RPair (Some p) (Decimal_of new_size - o_size o)),
        set_side_index side self (<[p := level']> index)) ∧
     (∃ resized,
        level' !! i = Some resized ∧
        o_size resized = Decimal_of new_size ∧
        o_id resized = o_id o ∧
        o_side resized = o_side o ∧
        o_price resized = o_price o) ∧
     (∀ j, j ≠ i → level' !! j = level !! j) ∧
     o_id <$> level' = o_id <$> level ∧
     length level' = length level).
Proof.
  intros Hnew Hprice Hside Hoid Hbs p index. subst p index.
  unfold change, change_check, side_index, set_side_index.
  rewrite Hnew, Hprice, Hside, Hoid. split.
  - intros Habsent. unfold_M. simpl.
    destruct Hbs as [-> | ->]; simpl in *.
    + destruct (_bids self !! Decimal_of price) as [level|] eqn:Hl; simpl;
        [|eauto].
      rewrite (any_id_not_found _ oid) by eauto. simpl. eauto.
    + destruct (_asks self !! Decimal_of price) as [level|] eqn:Hl; simpl;
        [|eauto].
      rewrite (any_id_not_found _ oid) by eauto. simpl. eauto.
  - intros level i o Hlevel Hi Hid Hfirst. cbv zeta.
    change (mkOrder (o_id o) (o_side o) (o_price o) (Decimal_of new_size))
      with (with_size o (Decimal_of new_size)).
    assert (Exists (λ o, o_id o = oid) level) as Hex.
    { apply Exists_exists. exists o. split; [|done].
      by eapply list_elem_of_lookup_2. }
    assert (Exists (λ o, o_id o = oid)
              (<[i := with_size o (Decimal_of new_size)]> level)) as Hex'.
    { apply Exists_exists. exists (with_size o (Decimal_of new_size)).
      split; [|done]. eapply list_elem_of_lookup_2.
      apply list_lookup_insert_eq. by eapply lookup_lt_Some. }
    split; [|split; [|split; [|split]]].
    + unfold_M.
      destruct Hbs as [-> | ->]; simpl in *; rewrite Hlevel; simpl;
        rewrite (any_id_found _ oid) by done; simpl;
        rewrite (resize_first oid _ level i o) by done; simpl;
        rewrite lookup_insert_eq; simpl;
        by rewrite (any_id_found _ oid) by done.
    + exists (with_size o (Decimal_of new_size)).
      split; [|done]. apply list_lookup_insert_eq. by eapply lookup_lt_Some.
    + intros j Hj. by apply list_lookup_insert_ne.
    + by apply resize_keeps_ids.
    + by rewrite length_insert.
Qed.

(** ** Add *)

Lemma add_enqueues (self : OrderBook) (order : Message) (o : Order) :
  make_order order = Ret o →
  add order self =
    (Ret (RPair (Some (o_price o)) (o_size o)),
     set_side_index (o_side o) self
       (enqueue (side_index (o_side o) self) o)).
Proof.
  intros Ho. unfold add, enqueue, side_index, set_side_index. unfold_M.
  rewrite Ho.
  destruct (decide (o_side o = "buy")); simpl.
  - by destruct (_bids self !! o_price o).
  - by destruct (_asks self !! o_price o).
Qed.


(** ** Resynchronisation *)

Lemma make_order_entry (side : string) (e : Entry) :
  e_size e ≠ 0 →
  make_order (entry_message side e) = Ret (entry_order side e).
Proof.
  intros Hsize. unfold make_order, entry_message, get_or. simpl.
  by rewrite bool_decide_eq_true_2.
Qed.

Lemma for_each_add_buy (entries : list Entry) (self : OrderBook) :
  Forall (λ e, e_size e ≠ 0) entries →
  for_each (λ bid, add (entry_message "buy" bid)) entries self =
    (Ret (),
     set_bids_field self
       (foldl enqueue (_bids self) (entry_order "buy" <$> entries))).
Proof.
  intros Hall. revert self.
  induction Hall as [|e entries He _ IH]; intros self; simpl.
  - by destruct self.
  - unfold bind.
    rewrite (add_enqueues _ _ _ (make_order_entry "buy" e He)). simpl.
    rewrite IH. by destruct self.
Qed.

Lemma for_each_add_sell (entries : list Entry) (self : OrderBook) :
  Forall (λ e, e_size e ≠ 0) entries →
  for_each (λ ask, add (entry_message "sell" ask)) entries self =
    (Ret (),
     set_asks_field self
       (foldl enqueue (_asks self) (entry_order "sell" <$> entries))).
Proof.
  intros Hall. revert self.
  induction Hall as [|e entries He _ IH]; intros self; simpl.
  - by destruct self.
  - unfold bind.
    rewrite (add_enqueues _ _ _ (make_order_entry "sell" e He)). simpl.
    rewrite IH. by destruct self.
Qed.

Lemma foldl_enqueue_lookup (side : string) (entries : list Entry)
    (index : gmap decimal (list Order)) (p : decimal) :
  foldl enqueue index (entry_order side <$> entries) !! p =
    match filter (λ e, e_price e = p) entries with
    | [] => index !! p
    | level => Some (default [] (index !! p) ++ (entry_order side <$> level))
    end.
Proof.
  revert index. induction entries as [|e entries IH]; intros index; [done|].
  rewrite fmap_cons. simpl foldl. rewrite IH, filter_cons.
  unfold enqueue. simpl (o_price _).
  destruct (decide (e_price e = p)) as [->|Hne].
  - rewrite !lookup_insert_eq.
    destruct (filter _ entries) as [|e' level]; [done|].
    rewrite fmap_cons. simpl default. by rewrite <- app_assoc.
  - by rewrite !lookup_insert_ne.
Qed.

Lemma snapshot_index_lookup (side : string) (entries : list Entry)
    (p : decimal) :
  foldl enqueue ∅ (entry_order side <$> entries) !! p =
    snapshot_level side entries p.
Proof.
  rewrite foldl_enqueue_lookup, lookup_empty. unfold snapshot_level.
  by destruct (filter _ entries).
Qed.

Lemma reset_book_loads (self : OrderBook) (res : Snapshot)
    (rest : list Snapshot) :
  _client self = res :: rest →
  Forall (λ e, e_size e ≠ 0) (res_bids res) →
  Forall (λ e, e_size e ≠ 0) (res_asks res) →
  reset_book self =
    (Ret (),
     mkOrderBook
       (foldl enqueue ∅ (entry_order "sell" <$> res_asks res))
       (foldl enqueue ∅ (entry_order "buy" <$> res_bids res))
       rest (res_sequence res) (_log_to self) (_current_ticker self)).
Proof.
  intros Hclient Hbids Hasks.
  unfold reset_book, bind, clear_sides, get_product_order_book. simpl.
  rewrite Hclient. rewrite for_each_add_buy by done. simpl.
  by rewrite for_each_add_sell by done.
Qed.

(** Healing a gap with a snapshot that loads.  On a book with sequence
    S >= 0, a message whose sequence is beyond S + 1 makes [on_message]
    take exactly one answer [res] of the snapshot service and, when no
    entry of [res] has a zero size, return
    'Sequence gap to this order' with: each side holding at every price
    exactly the orders of [res] at that price, in snapshot order, whatever
    the book held before; the sequence equal to the snapshot's; the ticker
    untouched; and nothing of the message in the book. *)
Theorem gap_triggers_one_resync (self : OrderBook) (message : Message)
    (res : Snapshot) (rest : list Snapshot) :
  (0 ≤ _sequence self)%Z →
  (default (-1) (m_sequence message) > _sequence self + 1)%Z →
  _client self = res :: rest →
  Forall (λ e, e_size e ≠ 0) (res_bids res ++ res_asks res) →
  let out := on_message message self in
  out.1 = Ret (RStr "Sequence gap to this order") ∧
  _client out.2 = rest ∧
  _sequence out.2 = res_sequence res ∧
  (∀ p, _bids out.2 !! p = snapshot_level "buy" (res_bids res) p) ∧
  (∀ p, _asks out.2 !! p = snapshot_level "sell" (res_asks res) p) ∧
  _current_ticker out.2 = _current_ticker self.
Proof.
  intros Hsynced Hgap Hclient Hsizes out. subst out.
  apply Forall_app in Hsizes as [Hb Ha].
  rewrite on_message_gap by lia.
  unfold on_sequence_gap, bind, ret.
  erewrite reset_book_loads by done. simpl.
  do 3 (split; [done|]).
  split; [|split; [|done]]; intros p; apply snapshot_index_lookup.
Qed.

(** ** Events that lack a field *)

Lemma make_order_without_size (order : Message) :
  m_size order = None →
  m_remaining_size order = None →
  ∃ key, make_order order = Raise (KeyError key).
Proof.
  intros Hsize Hremaining. unfold make_order, get_or, getitem.
  rewrite Hsize, Hremaining.
  destruct (m_order_id order) as [oid|]; [destruct (truthy_str oid)|];
    destruct (m_id order), (m_side order), (m_price order); eauto.
Qed.

(** Which events that lack a field are skipped.  An in-order event
    (sequence = book's + 1, on an initialised book): a change event that
    has no new_size, or no price, makes [on_message] return a diagnostic
    string, raise nothing, leave both sides as they were and set the
    book's sequence to the event's, as [change] guards these reads; an
    open event with neither size nor remaining_size makes [on_message]
    raise [KeyError] with the sequence where it was, as [add] does not. *)
Theorem events_missing_a_field (self : OrderBook) (message : Message) :
  _sequence self ≠ (-1)%Z →
  default (-1)%Z (m_sequence message) = (_sequence self + 1)%Z →
  let out := on_message message self in
  (m_type message = Some "change" →
   m_new_size message = None ∨ m_price message = None →
   (∃ diagnostic, out.1 = Ret (RStr diagnostic)) ∧
   _bids out.2 = _bids self ∧
   _asks out.2 = _asks self ∧
   _client out.2 = _client self ∧
   _sequence out.2 = default (-1)%Z (m_sequence message)) ∧
  (m_type message = Some "open" →
   m_size message = None →
   m_remaining_size message = None →
   (∃ key, out.1 = Raise (KeyError key)) ∧
   _bids out.2 = _bids self ∧
   _asks out.2 = _asks self ∧
   _client out.2 = _client self ∧
   _sequence out.2 = _sequence self).
Proof.
  intros Hinit Hnext out. subst out.
  rewrite on_message_in_order by done. split.
  - intros Htype Hmissing. rewrite <- Hnext, Htype.
    unfold bind, lift, getitem, dispatch, change, ret, set_sequence. simpl.
    destruct (m_new_size message) as [new_size|]; [|by eauto 10].
    destruct Hmissing as [?|Hprice]; [done|]. rewrite Hprice. by eauto 10.
  - intros Htype Hsize Hremaining. rewrite Htype.
    destruct (make_order_without_size message Hsize Hremaining)
      as [key Hkey].
    unfold bind, lift, getitem, dispatch, add. simpl. rewrite Hkey.
    by eauto 10.
Qed.

(** ** Matches against the head of a level *)

Lemma match_head_consumes (self : OrderBook) (order : Message)
    (size price : Numeric) (side maker : string) (b0 : Order)
    (rest : list Order) :
  m_size order = Some size →
  m_price order = Some price →
  m_side order = Some side →
  m_maker_order_id order = Some maker →
  side_index side self !! Decimal_of price = Some (b0 :: rest) →
  o_id b0 = maker →
  match_ order self =
    (Ret (RPair (Some (Decimal_of price)) (- Decimal_of size)),
     set_side_index side self
       (<[Decimal_of price :=
            if decide (o_size b0 = Decimal_of size) then rest
            else with_size b0 (o_size b0 - Decimal_of size) :: rest]>
          (side_index side self))).
Proof.
  intros Hsize Hprice Hside Hmaker Hlevel Hid.
  unfold match_, side_index, set_side_index in *.
  rewrite Hsize, Hprice, Hside, Hmaker. unfold_M. simpl.
  destruct (decide (side = "buy")); rewrite Hlevel; simpl;
    rewrite bool_decide_eq_true_2 by done;
    by destruct (decide (o_size b0 = Decimal_of size)).
Qed.

(** ** Levels are never left empty, except by a match *)

Section preservation.
Context {I : OrderBook → Prop}.

Lemma preserves_ret {A} (a : A) : preserves I (ret a).
Proof. by intros self. Qed.

Lemma preserves_raise {A} (e : exn) : preserves I (raise (A := A) e).
Proof. by intros self. Qed.

Lemma preserves_lift {A} (r : result A) : preserves I (lift r).
Proof. by intros self. Qed.

Lemma preserves_bind {A B} (c : M A) (k : A → M B) :
  preserves I c → (∀ a, preserves I (k a)) → preserves I (bind c k).
Proof.
  intros Hc Hk self Hself. unfold bind. specialize (Hc self Hself).
  destruct (c self) as [[a|e] self']; simpl in *; [by apply Hk|done].
Qed.

Lemma preserves_for_each {A B} (body : A → M B) (l : list A) :
  (∀ x, preserves I (body x)) → preserves I (for_each body l).
Proof.
  intros Hbody. induction l as [|x l IH]; simpl.
  - apply preserves_ret.
  - apply preserves_bind; [apply Hbody|by intros _].
Qed.
End preservation.

Lemma no_empty_level_empty : no_empty_level ∅.
Proof. intros p. by rewrite lookup_empty. Qed.

Lemma no_empty_level_insert (index : gmap decimal (list Order))
    (p : decimal) (level : list Order) :
  level ≠ [] → no_empty_level index → no_empty_level (<[p := level]> index).
Proof.
  intros Hlevel Hindex q. destruct (decide (p = q)) as [->|Hne].
  - rewrite lookup_insert_eq. congruence.
  - rewrite lookup_insert_ne by done. apply Hindex.
Qed.

Lemma no_empty_level_delete (index : gmap decimal (list Order))
    (p : decimal) :
  no_empty_level index → no_empty_level (delete p index).
Proof.
  intros Hindex q. destruct (decide (p = q)) as [->|Hne].
  - by rewrite lookup_delete_eq.
  - rewrite lookup_delete_ne by done. apply Hindex.
Qed.

Lemma book_ok_get_bids (price : decimal) : preserves book_ok (get_bids price).
Proof. by intros self. Qed.

Lemma book_ok_get_asks (price : decimal) : preserves book_ok (get_asks price).
Proof. by intros self. Qed.

Lemma book_ok_set_bids (price : decimal) (bids : list Order) :
  bids ≠ [] → preserves book_ok (set_bids price bids).
Proof.
  intros Hne self [Hb Ha]. split; [|done]. by apply no_empty_level_insert.
Qed.

Lemma book_ok_set_asks (price : decimal) (asks : list Order) :
  asks ≠ [] → preserves book_ok (set_asks price asks).
Proof.
  intros Hne self [Hb Ha]. split; [done|]. by apply no_empty_level_insert.
Qed.

Lemma book_ok_remove_bids (price : decimal) :
  preserves book_ok (remove_bids price).
Proof.
  intros self [Hb Ha]. unfold remove_bids, delitem.
  destruct (_bids self !! price); [|done].
  split; [|done]. by apply no_empty_level_delete.
Qed.

Lemma book_ok_remove_asks (price : decimal) :
  preserves book_ok (remove_asks price).
Proof.
  intros self [Hb Ha]. unfold remove_asks, delitem.
  destruct (_asks self !! price); [|done].
  split; [done|]. by apply no_empty_level_delete.
Qed.

Lemma book_ok_set_sequence (s : Z) : preserves book_ok (set_sequence s).
Proof. by intros self. Qed.

Lemma snoc_not_nil {A} (l : list A) (x : A) : l ++ [x] ≠ [].
Proof. by destruct l. Qed.

Lemma book_ok_add (order : Message) : preserves book_ok (add order).
Proof.
  unfold add. apply preserves_bind; [apply preserves_lift|]. intros o.
  apply preserves_bind; [|intros _; apply preserves_ret].
  destruct (decide (o_side o = "buy")).
  - apply preserves_bind; [apply book_ok_get_bids|].
    intros [level|]; apply book_ok_set_bids; [apply snoc_not_nil|done].
  - apply preserves_bind; [apply book_ok_get_asks|].
    intros [level|]; apply book_ok_set_asks; [apply snoc_not_nil|done].
Qed.

Lemma book_ok_remove (order : Message) : preserves book_ok (remove order).
Proof.
  unfold remove. apply preserves_bind; [apply preserves_lift|]. intros side.
  apply preserves_bind.
  - destruct (decide (side = "buy")).
    + apply preserves_bind; [apply book_ok_get_bids|].
      intros [level|]; [|apply preserves_ret].
      destruct (foldl _ _ level) as [[[kept size] price] found].
      apply preserves_bind; [|intros _; apply preserves_ret].
      destruct (decide (0 < length kept)%nat) as [Hlen|_].
      * apply book_ok_set_bids. by destruct kept; [simpl in Hlen; lia|].
      * apply book_ok_remove_bids.
    + apply preserves_bind; [apply book_ok_get_asks|].
      intros [level|]; [|apply preserves_ret].
      destruct (foldl _ _ level) as [[[kept size] price] found].
      apply preserves_bind; [|intros _; apply preserves_ret].
      destruct (decide (0 < length kept)%nat) as [Hlen|_].
      * apply book_ok_set_asks. by destruct kept; [simpl in Hlen; lia|].
      * apply book_ok_remove_asks.
  - intros [[size price] found]. apply preserves_ret.
Qed.

Lemma resize_not_nil (oid : string) (new_size old_size : decimal)
    (level level' : list Order) :
  resize oid new_size level = Some (old_size, level') → level' ≠ [].
Proof.
  unfold resize. destruct (list_find _ level) as [[i o]|] eqn:Hfind; [|done].
  intros [= _ <-] Hnil. apply list_find_Some in Hfind as (Hi & _ & _).
  apply lookup_lt_Some in Hi. apply (f_equal length) in Hnil.
  rewrite length_insert in Hnil. simpl in Hnil. lia.
Qed.

Lemma book_ok_change_check (order : Message) (side : string)
    (price new_size old_size : decimal) :
  preserves book_ok (change_check order side price new_size old_size).
Proof.
  unfold change_check. apply preserves_bind; [apply preserves_lift|].
  intros bid_side. apply preserves_bind.
  { destruct bid_side; [apply book_ok_get_bids|apply book_ok_get_asks]. }
  intros node. apply preserves_bind; [apply preserves_lift|].
  intros [|]; apply preserves_ret.
Qed.

Lemma book_ok_change (order : Message) : preserves book_ok (change order).
Proof.
  unfold change.
  destruct (m_new_size order) as [new_size|]; [|apply preserves_ret].
  destruct (m_price order) as [price|]; [|apply preserves_ret].
  apply preserves_bind; [apply preserves_lift|]. intros side.
  destruct (decide (side = "buy")).
  - apply preserves_bind; [apply book_ok_get_bids|]. intros level.
    apply preserves_bind; [apply preserves_lift|].
    intros [|]; [apply preserves_ret|].
    apply preserves_bind; [apply preserves_lift|]. intros oid.
    destruct (resize _ _ _) as [[old_size level']|] eqn:Hresize;
      [|apply preserves_raise].
    apply preserves_bind; [|intros _; apply book_ok_change_check].
    apply book_ok_set_bids. by eapply resize_not_nil.
  - apply preserves_bind; [apply book_ok_get_asks|]. intros level.
    apply preserves_bind; [apply preserves_lift|].
    intros [|]; [apply preserves_ret|].
    apply preserves_bind; [apply preserves_lift|]. intros oid.
    destruct (resize _ _ _) as [[old_size level']|] eqn:Hresize;
      [|apply preserves_raise].
    apply preserves_bind; [|intros _; apply book_ok_change_check].
    apply book_ok_set_asks. by eapply resize_not_nil.
Qed.

(** A resync leaves no empty level, whatever the book held and even when
    the fetch or the load raises half-way. *)
Lemma book_ok_reset_book (self : OrderBook) : book_ok (reset_book self).2.
Proof.
  unfold reset_book, bind at 1, clear_sides. simpl.
  apply (preserves_bind (I := book_ok)).
  - intros self'. unfold get_product_order_book.
    by destruct (_client self').
  - intros res. apply preserves_bind.
    { apply preserves_for_each. intros bid. apply book_ok_add. }
    intros _. apply preserves_bind; [|intros _; apply book_ok_set_sequence].
    apply preserves_for_each. intros ask. apply book_ok_add.
  - split; apply no_empty_level_empty.
Qed.

(** X18. Every message that is not a match leaves both sides without an
    empty level, whether the handler returns or raises: additions,
    removals, changes and resyncs keep the invariant that the match of C1
    and C8 breaks. *)
Lemma on_message_keeps_levels (self : OrderBook) (message : Message) :
  m_type message ≠ Some "match" →
  book_ok self →
  book_ok (on_message message self).2.
Proof.
  intros Htype Hself.
  assert (book_ok (logged message self)) as Hlogged by done.
  destruct (decide (_sequence self = (-1)%Z)) as [Huninit|Hinit].
  { rewrite on_message_uninitialised by done. unfold bind.
    pose proof (book_ok_reset_book (logged message self)) as Hreset.
    by destruct (reset_book (logged message self)) as [[[]|e] self']. }
  destruct (decide (default (-1) (m_sequence message) ≤ _sequence self)%Z).
  { by rewrite on_message_stale. }
  destruct (decide (default (-1) (m_sequence message) > _sequence self + 1)%Z).
  { rewrite on_message_gap by done. unfold on_sequence_gap, bind.
    pose proof (book_ok_reset_book (logged message self)) as Hreset.
    by destruct (reset_book (logged message self)) as [[[]|e] self']. }
  rewrite on_message_in_order by (done || lia).
  destruct (m_type message) as [msg_type|] eqn:Hmsg_type; [|done].
  unfold bind at 1, lift, getitem.
  revert Hlogged. generalize (logged message self).
  apply (preserves_bind (I := book_ok)).
  - unfold dispatch.
    repeat case_decide;
      try apply book_ok_add; try apply book_ok_remove;
      try apply book_ok_change; try apply preserves_ret.
    congruence.
  - intros book_change. apply preserves_bind; [by intros self'|].
    intros _. apply preserves_bind; [apply book_ok_set_sequence|].
    intros _. apply preserves_ret.
Qed.

(** * The properties on the concrete book *)

Example reset_book_snap10 :
  (reset_book book0).1 = Ret () ∧
  _bids (reset_book book0).2 = _bids book10 ∧
  _asks (reset_book book0).2 = _asks book10 ∧
  _sequence (reset_book book0).2 = 10%Z.
Proof. vm_compute. done. Qed.

(** The documented scenario: resync, open c, match a for 2. *)
Example documented_scenario :
  let out := run [open_c 11; open_c 11; match_at_100 12 "a" 2] book0 in
  out.1 = Ret [RStr "Reset book due to negative sequence";
               RPair (Some (dec 100)) (dec 1);
               RPair (Some (dec 100)) (dec (-2))] ∧
  _bids out.2 !! dec 100 = Some [order_c] ∧
  get_bid out.2 = (Ret (dec 100), out.2) ∧
  get_ask out.2 = (Ret (dec 101), out.2).
Proof. vm_compute. done. Qed.

Lemma stale_message_ignored_witness :
  let out := on_message (open_c 10) book10 in
  out.1 = Ret (RStr "Current book sequence beyond this order") ∧
  _bids out.2 = _bids book10 ∧
  _asks out.2 = _asks book10 ∧
  _sequence out.2 = _sequence book10 ∧
  _client out.2 = _client book10 ∧
  _current_ticker out.2 = _current_ticker book10.
Proof. apply (stale_message_ignored book10 (open_c 10)); simpl; lia. Defined.

Lemma remove_without_price_witness :
  (∃ level, _bids book10 !! dec 100 = Some level ∧ order_a ∈ level) ∧
  remove (done_a_no_price 11) book10 = (Ret (RPair None 0), book10) ∧
  (let out := on_message (done_a_no_price 11) book10 in
   out.1 = Ret (RPair None 0) ∧
   _bids out.2 = _bids book10 ∧
   _asks out.2 = _asks book10 ∧
   _sequence out.2 = (_sequence book10 + 1)%Z).
Proof.
  pose proof (remove_without_price book10 (done_a_no_price 11) "buy"
                eq_refl eq_refl eq_refl eq_refl) as [Hremove Happly].
  split; [|split].
  - exists [order_a]. split; [vm_compute; reflexivity|by left].
  - exact Hremove.
  - apply Happly; [simpl; lia|reflexivity..].
Defined.

Lemma match_maker_not_head_witness :
  match_ (match_at_100 12 "c" 1) book11 = (Raise AssertionError, book11) ∧
  match_ (with_price (NumStr (dec 97)) (match_at_100 12 "c" 1)) book11 =
    (Ret (RStr "Failed to find bids at this price for match"), book11).
Proof.
  split.
  - apply (proj1 (match_maker_not_head book11 (match_at_100 12 "c" 1)
              (NumStr (dec 1)) (NumStr (dec 100)) "buy" "c"
              eq_refl eq_refl eq_refl eq_refl) order_a [order_c]).
    + vm_compute; reflexivity.
    + vm_compute; discriminate.
  - apply (proj2 (match_maker_not_head book11
              (with_price (NumStr (dec 97)) (match_at_100 12 "c" 1))
              (NumStr (dec 1)) (NumStr (dec 97)) "buy" "c"
              eq_refl eq_refl eq_refl eq_refl)).
    vm_compute; reflexivity.
Defined.

Lemma book10_bids_nonempty : _bids book10 ≠ ∅.
Proof.
  intros Hempty. apply (f_equal (λ m, m !! dec 100)) in Hempty.
  vm_compute in Hempty. discriminate.
Defined.

Lemma book10_asks_nonempty : _asks book10 ≠ ∅.
Proof.
  intros Hempty. apply (f_equal (λ m, m !! dec 101)) in Hempty.
  vm_compute in Hempty. discriminate.
Defined.

Lemma best_prices_witness :
  get_bid book0 = (Raise IndexError, book0) ∧
  (∃ p, get_bid book10 = (Ret p, book10) ∧ is_Some (_bids book10 !! p) ∧
        ∀ q, is_Some (_bids book10 !! q) → q ≤ p) ∧
  get_ask book0 = (Raise IndexError, book0) ∧
  (∃ p, get_ask book10 = (Ret p, book10) ∧ is_Some (_asks book10 !! p) ∧
        ∀ q, is_Some (_asks book10 !! q) → p ≤ q).
Proof.
  split; [|split; [|split]].
  - apply (proj1 (best_prices book0)). reflexivity.
  - apply (proj1 (proj2 (best_prices book10))), book10_bids_nonempty.
  - apply (proj1 (proj2 (proj2 (best_prices book0)))). reflexivity.
  - apply (proj2 (proj2 (proj2 (best_prices book10)))), book10_asks_nonempty.
Defined.

Lemma change_resizes_in_place_witness :
  change (change_c 12) book11 =
    (Ret (RPair (Some (dec 100)) (dec 3 - dec 1)),
     set_side_index "buy" book11
       (<[dec 100 := [order_a; mkOrder "c" "buy" (dec 100) (dec 3)]]>
          (_bids book11))) ∧
  (∃ diagnostic,
     change (with_order_id "x" (change_c 12)) book11 =
       (Ret (RStr diagnostic), book11)).
Proof.
  split.
  - apply (proj2 (change_resizes_in_place book11 (change_c 12)
              (NumStr (dec 3)) (NumStr (dec 100)) "buy" "c"
              eq_refl eq_refl eq_refl eq_refl (or_introl eq_refl))
              [order_a; order_c] 1%nat order_c).
    + vm_compute; reflexivity.
    + reflexivity.
    + reflexivity.
    + intros [|j] o' Hj Hid; [|lia].
      vm_compute in Hj. injection Hj as <-. vm_compute in Hid. discriminate.
  - apply (proj1 (change_resizes_in_place book11
              (with_order_id "x" (change_c 12))
              (NumStr (dec 3)) (NumStr (dec 100)) "buy" "x"
              eq_refl eq_refl eq_refl eq_refl (or_introl eq_refl))).
    intros level Hlevel. vm_compute in Hlevel. injection Hlevel as <-.
    repeat constructor; vm_compute; discriminate.
Defined.


(** Outside the events of [add]: were the absolute size the number zero
    with a remaining size beside it, [or] would pass on to the remaining
    size, 5. *)
Example add_zero_number_size :
  m_size (open_zero_size 11) = Some (NumDec 0) ∧
  m_remaining_size (open_zero_size 11) = Some (NumStr (dec 5)) ∧
  ¬ event_of_add (open_zero_size 11) ∧
  make_order (open_zero_size 11) = Ret (mkOrder "z" "buy" (dec 100) (dec 5)).
Proof.
  split; [reflexivity|]. split; [reflexivity|]. split; [|reflexivity].
  intros [Htext|Hnone]; [|discriminate].
  by apply (Htext (NumDec 0)).
Qed.

Lemma gap_triggers_one_resync_witness :
  let out := on_message (open_c 15) book10 in
  out.1 = Ret (RStr "Sequence gap to this order") ∧
  _client out.2 = [] ∧
  _sequence out.2 = 20%Z ∧
  (∀ p, _bids out.2 !! p = snapshot_level "buy" (res_bids snap20) p) ∧
  (∀ p, _asks out.2 !! p = snapshot_level "sell" (res_asks snap20) p) ∧
  _current_ticker out.2 = _current_ticker book10.
Proof.
  apply (gap_triggers_one_resync book10 (open_c 15) snap20 []).
  - simpl; lia.
  - simpl; lia.
  - reflexivity.
  - repeat constructor; vm_compute; discriminate.
Defined.

(** The level of [snap20] at 99 keeps the snapshot's order: d before e. *)
Example snapshot_level_99 :
  snapshot_level "buy" (res_bids snap20) (dec 99) =
    Some [mkOrder "d" "buy" (dec 99) (dec 1);
          mkOrder "e" "buy" (dec 99) (dec 4)].
Proof. vm_compute. reflexivity. Qed.

Lemma events_missing_a_field_witness :
  (let message :=
     with_order_id "c"
       (with_price (NumStr (dec 100)) (feed_message 12 "change" "buy")) in
   let out := on_message message book11 in
   (∃ diagnostic, out.1 = Ret (RStr diagnostic)) ∧
   _bids out.2 = _bids book11 ∧
   _asks out.2 = _asks book11 ∧
   _client out.2 = _client book11 ∧
   _sequence out.2 = 12%Z) ∧
  (let out := on_message (open_without_size 12) book11 in
   (∃ key, out.1 = Raise (KeyError key)) ∧
   _bids out.2 = _bids book11 ∧
   _asks out.2 = _asks book11 ∧
   _client out.2 = _client book11 ∧
   _sequence out.2 = 11%Z).
Proof.
  split.
  - apply (proj1 (events_missing_a_field book11
             (with_order_id "c"
                (with_price (NumStr (dec 100))
                   (feed_message 12 "change" "buy")))
             ltac:(simpl; lia) eq_refl));
      [reflexivity|left; reflexivity].
  - apply (proj2 (events_missing_a_field book11 (open_without_size 12)
             ltac:(simpl; lia) eq_refl)); reflexivity.
Defined.

(** C4 fails on the code.  An in-order open event with neither size nor
    remaining_size is not skipped: [add] reads remaining_size unguarded,
    [KeyError] leaves [on_message], and the book's sequence stays at 10
    instead of advancing to the event's 11.  [change] guards its reads of
    new_size and price and skips such an event. *)
Theorem open_without_size_raises :
  _sequence book10 = 10%Z ∧
  m_sequence (open_without_size 11) = Some 11%Z ∧
  m_type (open_without_size 11) = Some "open" ∧
  m_size (open_without_size 11) = None ∧
  m_remaining_size (open_without_size 11) = None ∧
  on_message (open_without_size 11) book10 =
    (Raise (KeyError "remaining_size"), book10) ∧
  _sequence (on_message (open_without_size 11) book10).2 ≠ 11%Z.
Proof. vm_compute. repeat split; discriminate. Qed.

(** A snapshot entry of size zero stops the resync: [add] reads
    remaining_size, which the entry has not, and the sequence stays -1. *)
Example resync_zero_size_entry :
  let res := mkSnapshot 10 [mkEntry (dec 100) 0 "a"] [] in
  reset_book (OrderBook_init [res] None) =
    (Raise (KeyError "remaining_size"), OrderBook_init [] None).
Proof. vm_compute. reflexivity. Qed.

(** C2 fails on the code.  [book_zero] is synced at sequence 10 and its
    snapshot service answers [snap_zero], sequence 20, whose second bid has
    size zero.  A message of sequence 15 opens a gap; the resync clears
    the sides, loads the first bid and stops at the second with
    [KeyError], [add] taking the zero size for a missing one: the book
    keeps sequence 10 instead of the snapshot's 20 and holds a part of the
    snapshot only. *)
Theorem gap_resync_stops_at_zero_size :
  let out := on_message (open_c 15) book_zero in
  _sequence book_zero = 10%Z ∧
  res_sequence snap_zero = 20%Z ∧
  out.1 = Raise (KeyError "remaining_size") ∧
  _sequence out.2 = 10%Z ∧
  _client out.2 = [] ∧
  _bids out.2 !! dec 100 = None ∧
  _bids out.2 !! dec 99 = Some [mkOrder "d" "buy" (dec 99) (dec 1)] ∧
  _bids out.2 !! dec 98 = None ∧
  _asks out.2 = ∅.
Proof. vm_compute. done. Qed.

(** ** Levels emptied by a match *)

(** C1 fails on the code.  From a fresh book, a resync on [snap10] and then
    the in-order match of order a for its whole size leave the bids with the
    price 100 mapped to the empty queue, and [get_bid] still answers 100. *)
Theorem match_empties_level_reachable :
  let out := run [open_c 11; match_at_100 11 "a" 2] book0 in
  out.1 = Ret [RStr "Reset book due to negative sequence";
               RPair (Some (dec 100)) (dec (-2))] ∧
  _sequence out.2 = 11%Z ∧
  _bids out.2 !! dec 100 = Some [] ∧
  ¬ no_empty_level (_bids out.2) ∧
  get_bid out.2 = (Ret (dec 100), out.2).
Proof.
  assert (_bids (run [open_c 11; match_at_100 11 "a" 2] book0).2 !! dec 100
          = Some []) as Hlevel by (vm_compute; reflexivity).
  cbv zeta. split; [vm_compute; reflexivity|].
  split; [vm_compute; reflexivity|]. split; [exact Hlevel|].
  split; [|vm_compute; reflexivity].
  intros Hinv. by apply (Hinv (dec 100)).
Qed.

(** C8 fails on the code in one point.  A match of the whole size of the
    only order of a level removes the order and returns [(price, -size)],
    but the level stays in the index, mapped to the empty queue. *)
Theorem match_last_order_keeps_level :
  _bids book10 !! dec 100 = Some [order_a] ∧
  match_ (match_at_100 11 "a" 2) book10 =
    (Ret (RPair (Some (dec 100)) (- dec 2)),
     set_bids_field book10 (<[dec 100 := []]> (_bids book10))) ∧
  _bids (match_ (match_at_100 11 "a" 2) book10).2 !! dec 100 = Some [] ∧
  _bids (match_ (match_at_100 11 "a" 2) book10).2 !! dec 100 ≠ None.
Proof. vm_compute. repeat split; discriminate. Qed.

(** The empty level goes away only when a later done message for that
    price reaches [remove]. *)
Example done_after_match_deletes_level :
  let done_a :=
    with_price (NumStr (dec 100)) (done_a_no_price 12) in
  let out := run [open_c 11; match_at_100 11 "a" 2; done_a] book0 in
  out.1 = Ret [RStr "Reset book due to negative sequence";
               RPair (Some (dec 100)) (dec (-2));
               RPair (Some (dec 100)) 0] ∧
  _bids out.2 !! dec 100 = None ∧
  get_bid out.2 = (Raise IndexError, out.2).
Proof. vm_compute. done. Qed.

(** * Further properties of the handler and the primitives *)

(** ** What the primitives leave alone *)

Section side_independent.
Context (I : OrderBook → Prop).
Context (Hbids : ∀ self b, I self → I (set_bids_field self b)).
Context (Hasks : ∀ self a, I self → I (set_asks_field self a)).

Lemma si_get_bids (price : decimal) : preserves I (get_bids price).
Proof. by intros self. Qed.

Lemma si_get_asks (price : decimal) : preserves I (get_asks price).
Proof. by intros self. Qed.

Lemma si_set_bids (price : decimal) (bids : list Order) :
  preserves I (set_bids price bids).
Proof. intros self Hself. by apply Hbids. Qed.

Lemma si_set_asks (price : decimal) (asks : list Order) :
  preserves I (set_asks price asks).
Proof. intros self Hself. by apply Hasks. Qed.

Lemma si_remove_bids (price : decimal) : preserves I (remove_bids price).
Proof.
  intros self Hself. unfold remove_bids, delitem.
  destruct (_bids self !! price); [by apply Hbids|done].
Qed.

Lemma si_remove_asks (price : decimal) : preserves I (remove_asks price).
Proof.
  intros self Hself. unfold remove_asks, delitem.
  destruct (_asks self !! price); [by apply Hasks|done].
Qed.

Lemma si_assert (c : bool) : preserves I (assert c).
Proof. destruct c; by intros self. Qed.

Lemma si_add (order : Message) : preserves I (add order).
Proof.
  unfold add. apply preserves_bind; [apply preserves_lift|]. intros o.
  apply preserves_bind; [|intros _; apply preserves_ret].
  destruct (decide (o_side o = "buy")).
  - apply preserves_bind; [apply si_get_bids|].
    intros [level|]; apply si_set_bids.
  - apply preserves_bind; [apply si_get_asks|].
    intros [level|]; apply si_set_asks.
Qed.

Lemma si_remove (order : Message) : preserves I (remove order).
Proof.
  unfold remove. apply preserves_bind; [apply preserves_lift|]. intros side.
  apply preserves_bind.
  - destruct (decide (side = "buy")).
    + apply preserves_bind; [apply si_get_bids|].
      intros [level|]; [|apply preserves_ret].
      destruct (foldl _ _ level) as [[[kept size] price] found].
      apply preserves_bind; [|intros _; apply preserves_ret].
      destruct (decide (0 < length kept)%nat);
        [apply si_set_bids|apply si_remove_bids].
    + apply preserves_bind; [apply si_get_asks|].
      intros [level|]; [|apply preserves_ret].
      destruct (foldl _ _ level) as [[[kept size] price] found].
      apply preserves_bind; [|intros _; apply preserves_ret].
      destruct (decide (0 < length kept)%nat);
        [apply si_set_asks|apply si_remove_asks].
  - intros [[size price] found]. apply preserves_ret.
Qed.

Lemma si_match (order : Message) : preserves I (match_ order).
Proof.
  unfold match_.
  apply preserves_bind; [apply preserves_lift|]. intros size.
  apply preserves_bind; [apply preserves_lift|]. intros price.
  apply preserves_bind; [apply preserves_lift|]. intros side.
  destruct (decide (side = "buy")).
  - apply preserves_bind; [apply si_get_bids|].
    intros [[|b0 rest]|]; try apply preserves_ret.
    apply preserves_bind; [apply preserves_lift|]. intros maker.
    apply preserves_bind; [apply si_assert|]. intros _.
    apply preserves_bind; [|intros _; apply preserves_ret].
    destruct (decide _); apply si_set_bids.
  - apply preserves_bind; [apply si_get_asks|].
    intros [[|a0 rest]|]; try apply preserves_ret.
    apply preserves_bind; [apply preserves_lift|]. intros maker.
    apply preserves_bind; [apply si_assert|]. intros _.
    apply preserves_bind; [|intros _; apply preserves_ret].
    destruct (decide _); apply si_set_asks.
Qed.

Lemma si_change_check (order : Message) (side : string)
    (price new_size old_size : decimal) :
  preserves I (change_check order side price new_size old_size).
Proof.
  unfold change_check. apply preserves_bind; [apply preserves_lift|].
  intros bid_side. apply preserves_bind.
  { destruct bid_side; [apply si_get_bids|apply si_get_asks]. }
  intros node. apply preserves_bind; [apply preserves_lift|].
  intros [|]; apply preserves_ret.
Qed.

Lemma si_change (order : Message) : preserves I (change order).
Proof.
  unfold change.
  destruct (m_new_size order) as [new_size|]; [|apply preserves_ret].
  destruct (m_price order) as [price|]; [|apply preserves_ret].
  apply preserves_bind; [apply preserves_lift|]. intros side.
  destruct (decide (side = "buy")).
  - apply preserves_bind; [apply si_get_bids|]. intros level.
    apply preserves_bind; [apply preserves_lift|].
    intros [|]; [apply preserves_ret|].
    apply preserves_bind; [apply preserves_lift|]. intros oid.
    destruct (resize _ _ _) as [[old_size level']|];
      [|apply preserves_raise].
    apply preserves_bind; [apply si_set_bids|].
    intros _; apply si_change_check.
  - apply preserves_bind; [apply si_get_asks|]. intros level.
    apply preserves_bind; [apply preserves_lift|].
    intros [|]; [apply preserves_ret|].
    apply preserves_bind; [apply preserves_lift|]. intros oid.
    destruct (resize _ _ _) as [[old_size level']|];
      [|apply preserves_raise].
    apply preserves_bind; [apply si_set_asks|].
    intros _; apply si_change_check.
Qed.

Lemma si_dispatch (msg_type : string) (message : Message) :
  preserves I (dispatch msg_type message).
Proof.
  unfold dispatch.
  repeat case_decide;
    auto using si_add, si_remove, si_match, si_change, preserves_ret.
Qed.
End side_independent.

Lemma frame_dispatch (msg_type : string) (message : Message)
    (self : OrderBook) :
  frame (dispatch msg_type message self).2 = frame self.
Proof.
  by apply (si_dispatch (λ book, frame book = frame self)).
Qed.

(** X1. The four primitives touch the two sides only: whether they return
    or raise, the sequence, the snapshot client, the message log and the
    ticker are as before. *)
Theorem primitives_keep_frame (order : Message) (self : OrderBook) :
  frame (add order self).2 = frame self ∧
  frame (remove order self).2 = frame self ∧
  frame (match_ order self).2 = frame self ∧
  frame (change order self).2 = frame self.
Proof.
  repeat split.
  - by apply (si_add (λ book, frame book = frame self)).
  - by apply (si_remove (λ book, frame book = frame self)).
  - by apply (si_match (λ book, frame book = frame self)).
  - by apply (si_change (λ book, frame book = frame self)).
Qed.

(** ** Raising before mutating *)

Ltac split_cases :=
  repeat (simplify_eq/=;
          match goal with
          | H : context [match ?x with _ => _ end] |- _ =>
              let E := fresh "E" in destruct x eqn:E
          end);
  simplify_eq/=.

Lemma add_raise_untouched (order : Message) (self self' : OrderBook)
    (e : exn) :
  add order self = (Raise e, self') → self' = self.
Proof. unfold add. unfold_M. intros H. by split_cases. Qed.

Lemma remove_raise_untouched (order : Message) (self self' : OrderBook)
    (e : exn) :
  remove order self = (Raise e, self') → self' = self.
Proof.
  unfold remove. unfold_M. unfold delitem, getitem. intros H.
  by split_cases.
Qed.

Lemma match_raise_untouched (order : Message) (self self' : OrderBook)
    (e : exn) :
  match_ order self = (Raise e, self') → self' = self.
Proof.
  unfold match_. unfold_M. unfold getitem. intros H.
  split_cases; unfold raise, ret in *; by simplify_eq.
Qed.

Lemma change_raise_untouched (order : Message) (self self' : OrderBook)
    (e : exn) :
  m_side order ≠ Some "" →
  change order self = (Raise e, self') → self' = self.
Proof.
  unfold change, change_check. unfold_M.
  unfold getitem, missing_in, any_id, is_bid_side. intros Hside H.
  split_cases; unfold raise, ret in *; by simplify_eq.
Qed.

(** X2. A primitive that raises has not touched the book: [add],
    [remove] and [match] read and check everything before they store, and
    so does [change] when the event's side is not the empty text. *)
Theorem primitives_raise_before_mutating (order : Message)
    (self self' : OrderBook) (e : exn) :
  add order self = (Raise e, self') ∨
  remove order self = (Raise e, self') ∨
  match_ order self = (Raise e, self') ∨
  (m_side order ≠ Some "" ∧ change order self = (Raise e, self')) →
  self' = self.
Proof.
  intros [H|[H|[H|[Hside H]]]].
  - by eapply add_raise_untouched.
  - by eapply remove_raise_untouched.
  - by eapply match_raise_untouched.
  - by eapply change_raise_untouched.
Qed.

Lemma primitives_raise_before_mutating_witness :
  add (open_without_size 11) book10 =
    (Raise (KeyError "remaining_size"), book10) ∧
  book10 = book10.
Proof.
  assert (add (open_without_size 11) book10 =
            (Raise (KeyError "remaining_size"), book10)) as Hadd
    by (vm_compute; reflexivity).
  split; [exact Hadd|].
  apply (primitives_raise_before_mutating (open_without_size 11) book10
           book10 (KeyError "remaining_size")).
  left. exact Hadd.
Defined.

(** ** In-order messages *)

Lemma dispatch_raise_untouched (msg_type : string) (message : Message)
    (self self' : OrderBook) (e : exn) :
  m_side message ≠ Some "" →
  dispatch msg_type message self = (Raise e, self') → self' = self.
Proof.
  intros Hside. unfold dispatch.
  repeat case_decide;
    eauto using add_raise_untouched, remove_raise_untouched,
      match_raise_untouched, change_raise_untouched.
  - unfold ret. congruence.
  - unfold ret. congruence.
Qed.

(** X3. An in-order message on an initialised book never fetches a
    snapshot, and its effect on the sequence tells its outcome: when
    [on_message] returns, the sequence is the message's and the ticker its
    product_id; when it raises, sequence and ticker are as they were. *)
Theorem in_order_message_advances (self : OrderBook) (message : Message) :
  _sequence self ≠ (-1)%Z →
  default (-1)%Z (m_sequence message) = (_sequence self + 1)%Z →
  let out := on_message message self in
  _client out.2 = _client self ∧
  match out.1 with
  | Ret _ =>
      _sequence out.2 = (_sequence self + 1)%Z ∧
      _current_ticker out.2 = m_product_id message
  | Raise _ =>
      _sequence out.2 = _sequence self ∧
      _current_ticker out.2 = _current_ticker self
  end.
Proof.
  intros Hinit Hnext out. subst out.
  rewrite on_message_in_order by done.
  unfold bind at 1, lift, getitem.
  destruct (m_type message) as [msg_type|]; [|done].
  unfold bind.
  pose proof (frame_dispatch msg_type message (logged message self)) as Hf.
  destruct (dispatch msg_type message (logged message self))
    as [[r|e] self'] eqn:Hd; simpl in *;
    unfold frame, logged in Hf; simpl in Hf; by simplify_eq.
Qed.

(** X4. An in-order message that makes [on_message] raise leaves the book
    as it was once the message was logged: neither side, nor the
    sequence, the client or the ticker has changed (the event's side not
    being the empty text). *)
Theorem raising_message_leaves_book (self self' : OrderBook)
    (message : Message) (e : exn) :
  _sequence self ≠ (-1)%Z →
  default (-1)%Z (m_sequence message) = (_sequence self + 1)%Z →
  m_side message ≠ Some "" →
  on_message message self = (Raise e, self') →
  self' = logged message self ∧
  _bids self' = _bids self ∧
  _asks self' = _asks self ∧
  _sequence self' = _sequence self.
Proof.
  intros Hinit Hnext Hside. rewrite on_message_in_order by done.
  unfold bind at 1, lift, getitem.
  destruct (m_type message) as [msg_type|].
  - unfold bind.
    destruct (dispatch msg_type message (logged message self))
      as [[r|e'] book] eqn:Hd; simpl; [done|].
    intros [= -> ->].
    by rewrite (dispatch_raise_untouched _ _ _ _ _ Hside Hd).
  - by intros [= _ <-].
Qed.

Lemma in_order_message_advances_witness :
  let out := on_message (change_c 12) book11 in
  _client out.2 = _client book11 ∧
  match out.1 with
  | Ret _ =>
      _sequence out.2 = (_sequence book11 + 1)%Z ∧
      _current_ticker out.2 = m_product_id (change_c 12)
  | Raise _ =>
      _sequence out.2 = _sequence book11 ∧
      _current_ticker out.2 = _current_ticker book11
  end.
Proof.
  apply (in_order_message_advances book11 (change_c 12));
    [simpl; lia|reflexivity].
Defined.

Lemma raising_message_leaves_book_witness :
  book10 = logged (open_without_size 11) book10 ∧
  _bids book10 = _bids book10 ∧
  _asks book10 = _asks book10 ∧
  _sequence book10 = _sequence book10.
Proof.
  apply (raising_message_leaves_book book10 book10 (open_without_size 11)
           (KeyError "remaining_size")).
  - simpl; lia.
  - reflexivity.
  - simpl; discriminate.
  - vm_compute; reflexivity.
Defined.

Lemma in_order_returns (self self' : OrderBook) (message : Message)
    (r : retval) :
  _sequence self ≠ (-1)%Z →
  default (-1)%Z (m_sequence message) = (_sequence self + 1)%Z →
  on_message message self = (Ret r, self') →
  _sequence self' = (_sequence self + 1)%Z ∧ _client self' = _client self.
Proof.
  intros Hinit Hnext. rewrite on_message_in_order by done.
  unfold bind at 1, lift, getitem.
  destruct (m_type message) as [msg_type|]; [|done].
  unfold bind.
  pose proof (frame_dispatch msg_type message (logged message self)) as Hf.
  destruct (dispatch msg_type message (logged message self))
    as [[r'|e] book] eqn:Hd; simpl in *; [|done].
  intros [= _ <-]. unfold frame, logged in Hf. simpl in *. by simplify_eq.
Qed.

Lemma consecutive_tail (start : Z) (m : Message) (messages : list Message) :
  consecutive start (m :: messages) → consecutive (start + 1) messages.
Proof.
  intros Hall i m' Hi. rewrite (Hall (S i) m' Hi). f_equal. lia.
Qed.

(** X5. A feed without gaps keeps the book in step: when the handler
    returns on each of [n] messages carrying the sequences S+1, ..., S+n,
    from a book at sequence S >= 0, the book ends at sequence S+n, one
    result was returned per message, and the snapshot service was never
    called. *)
Theorem consecutive_feed_keeps_pace (messages : list Message)
    (self self' : OrderBook) (results : list retval) :
  (0 ≤ _sequence self)%Z →
  consecutive (_sequence self) messages →
  run messages self = (Ret results, self') →
  _sequence self' = (_sequence self + Z.of_nat (length messages))%Z ∧
  _client self' = _client self ∧
  length results = length messages.
Proof.
  revert self results.
  induction messages as [|m messages IH]; intros self results Hsynced Hall.
  - simpl. intros [= <- <-]. repeat split. lia.
  - simpl.
    destruct (on_message m self) as [[r|e] book] eqn:Hm; [|done].
    destruct (run messages book) as [[rs|e] book'] eqn:Hrun; [|done].
    intros [= <- <-].
    assert (default (-1)%Z (m_sequence m) = (_sequence self + 1)%Z) as Hnext.
    { rewrite (Hall 0%nat m eq_refl). simpl. lia. }
    destruct (in_order_returns self book m r) as [Hseq Hclient];
      [lia|done..|].
    destruct (IH book rs) as (Hseq' & Hclient' & Hlen);
      [lia|rewrite Hseq; by eapply consecutive_tail|done|].
    rewrite Hseq', Hclient', Hseq, Hclient. simpl. rewrite Hlen.
    repeat split. lia.
Qed.

Lemma consecutive_feed_keeps_pace_witness :
  _sequence (run feed13 book10).2 =
    (_sequence book10 + Z.of_nat (length feed13))%Z ∧
  _client (run feed13 book10).2 = _client book10 ∧
  length [RPair (Some (dec 100)) (dec 1); RPair (Some (dec 100)) (dec (-2));
          RPair (Some (dec 100)) (dec 2)] = length feed13.
Proof.
  apply (consecutive_feed_keeps_pace feed13 book10).
  - simpl; lia.
  - intros [|[|[|i]]] m Hi; simplify_eq/=; reflexivity.
  - vm_compute; reflexivity.
Defined.

(** ** The first message and the failures of a resync *)

(** X6. On a book that was never synchronised (sequence -1) or that
    [on_open] has just reset, the next message, whatever it is, is not
    applied: the handler loads the next snapshot (whose entries have sizes
    other than zero) and returns 'Reset book due to negative sequence';
    each side holds at every price the snapshot's orders at that price
    and the sequence is the snapshot's. *)
Theorem first_message_resyncs (self : OrderBook) (message : Message)
    (res : Snapshot) (rest : list Snapshot) :
  _client self = res :: rest →
  Forall (λ e, e_size e ≠ 0) (res_bids res ++ res_asks res) →
  ∀ start, (_sequence self = (-1)%Z ∧ start = self) ∨
           start = (on_open self).2 →
  let out := on_message message start in
  out.1 = Ret (RStr "Reset book due to negative sequence") ∧
  _client out.2 = rest ∧
  _sequence out.2 = res_sequence res ∧
  (∀ p, _bids out.2 !! p = snapshot_level "buy" (res_bids res) p) ∧
  (∀ p, _asks out.2 !! p = snapshot_level "sell" (res_asks res) p).
Proof.
  intros Hclient Hsizes start Hstart out. subst out.
  apply Forall_app in Hsizes as [Hb Ha].
  assert (_sequence start = (-1)%Z ∧ _client start = res :: rest)
    as [Hseq Hclient'].
  { destruct Hstart as [[Hseq ->]| ->]; [done|]. by split. }
  rewrite on_message_uninitialised by done. unfold bind, ret.
  erewrite reset_book_loads by done. simpl.
  do 3 (split; [done|]).
  split; intros p; apply snapshot_index_lookup.
Qed.

Lemma first_message_resyncs_witness :
  let out := on_message (open_c 11) (on_open book10).2 in
  out.1 = Ret (RStr "Reset book due to negative sequence") ∧
  _client out.2 = [] ∧
  _sequence out.2 = res_sequence snap20 ∧
  (∀ p, _bids out.2 !! p = snapshot_level "buy" (res_bids snap20) p) ∧
  (∀ p, _asks out.2 !! p = snapshot_level "sell" (res_asks snap20) p).
Proof.
  apply (first_message_resyncs book10 (open_c 11) snap20 []).
  - reflexivity.
  - repeat constructor; vm_compute; discriminate.
  - right. reflexivity.
Defined.

Lemma reset_book_fetch_fails (self : OrderBook) :
  _client self = [] →
  reset_book self =
    (Raise FetchError, set_bids_field (set_asks_field self ∅) ∅).
Proof.
  intros Hclient.
  unfold reset_book, bind, clear_sides, get_product_order_book. simpl.
  by rewrite Hclient.
Qed.

(** X7. A resync whose snapshot fetch fails leaves an empty book at the
    old sequence: the sides are cleared before the fetch, so when a
    message needs a resync (book at -1, or a gap) and the service has no
    answer, [on_message] raises the fetch error, both sides are empty and
    the sequence is unchanged. *)
Theorem failed_fetch_empties_book (self : OrderBook) (message : Message) :
  _client self = [] →
  _sequence self = (-1)%Z ∨
    (default (-1) (m_sequence message) > _sequence self + 1)%Z →
  let out := on_message message self in
  out.1 = Raise FetchError ∧
  _bids out.2 = ∅ ∧
  _asks out.2 = ∅ ∧
  _sequence out.2 = _sequence self.
Proof.
  intros Hclient Hresync out. subst out.
  destruct (decide (_sequence self = (-1)%Z)) as [Hseq|Hseq].
  - rewrite on_message_uninitialised by done. unfold bind.
    by rewrite (reset_book_fetch_fails (logged message self)).
  - destruct Hresync as [?|Hgap]; [done|].
    rewrite on_message_gap by done. unfold on_sequence_gap, bind.
    by rewrite (reset_book_fetch_fails (logged message self)).
Qed.

Lemma failed_fetch_empties_book_witness :
  let out := on_message (open_c 15) book_offline in
  out.1 = Raise FetchError ∧
  _bids out.2 = ∅ ∧
  _asks out.2 = ∅ ∧
  _sequence out.2 = _sequence book_offline.
Proof.
  apply (failed_fetch_empties_book book_offline (open_c 15)).
  - reflexivity.
  - right. simpl. lia.
Defined.

Lemma for_each_add_zero_size (side : string) (entries : list Entry)
    (self : OrderBook) :
  Exists (λ e, e_size e = 0) entries →
  let out := for_each (λ e, add (entry_message side e)) entries self in
  out.1 = Raise (KeyError "remaining_size") ∧ frame out.2 = frame self.
Proof.
  intros Hzero. revert self.
  induction entries as [|e entries IH]; intros self.
  { by apply Exists_nil in Hzero. }
  simpl. unfold bind.
  destruct (decide (e_size e = 0)) as [He|He].
  - unfold add, bind, lift, make_order, entry_message, get_or. simpl.
    rewrite He. by rewrite bool_decide_eq_false_2 by (by intros []).
  - rewrite (add_enqueues _ _ _ (make_order_entry side e He)).
    apply Exists_cons in Hzero as [?|Hzero]; [done|].
    cbn [o_side entry_order].
    specialize (IH Hzero (set_side_index side self
                  (enqueue (side_index side self) (entry_order side e)))).
    cbv zeta in IH. destruct IH as [Hraise Hframe].
    destruct (for_each _ entries _) as [[[]|e'] book];
      cbn [fst snd] in *; [done|].
    split; [done|]. rewrite Hframe. unfold set_side_index, frame.
    by destruct (decide (side = "buy")).
Qed.

Lemma reset_book_zero_size (self : OrderBook) (res : Snapshot)
    (rest : list Snapshot) :
  _client self = res :: rest →
  Exists (λ e, e_size e = 0) (res_bids res ++ res_asks res) →
  ∃ book,
    reset_book self = (Raise (KeyError "remaining_size"), book) ∧
    _client book = rest ∧
    _sequence book = _sequence self.
Proof.
  intros Hclient Hzero.
  unfold reset_book, bind at 1, clear_sides. cbn [fst snd].
  unfold bind at 1, get_product_order_book. cbn [_client set_bids_field
    set_asks_field]. rewrite Hclient.
  set (cleared := mkOrderBook _ _ rest _ _ _).
  assert (frame cleared =
            (_sequence self, rest, _log_to self, _current_ticker self))
    as Hcleared by done.
  clearbody cleared. unfold bind at 1.
  destruct (decide (Exists (λ e, e_size e = 0) (res_bids res))) as [Hb|Hb].
  - pose proof (for_each_add_zero_size "buy" _ cleared Hb) as Hfor.
    cbv zeta in Hfor. destruct Hfor as [Hr Hf].
    destruct (for_each _ (res_bids res) cleared) as [r book].
    cbn [fst snd] in *. subst r. exists book. split; [done|].
    rewrite Hcleared in Hf. unfold frame in Hf. by simplify_eq.
  - apply Exists_app in Hzero as [?|Ha]; [done|].
    apply not_Exists_Forall in Hb; [|apply _].
    assert (Forall (λ e, e_size e ≠ 0) (res_bids res)) as Hb'.
    { eapply Forall_impl; [exact Hb|]. by intros e He. }
    rewrite (for_each_add_buy _ cleared Hb'). unfold bind at 1.
    set (loaded := set_bids_field cleared _).
    assert (frame loaded =
              (_sequence self, rest, _log_to self, _current_ticker self))
      as Hloaded by done.
    clearbody loaded.
    pose proof (for_each_add_zero_size "sell" _ loaded Ha) as Hfor.
    cbv zeta in Hfor. destruct Hfor as [Hr Hf].
    destruct (for_each _ (res_asks res) loaded) as [r book].
    cbn [fst snd] in *. subst r. exists book. split; [done|].
    rewrite Hloaded in Hf. unfold frame in Hf. by simplify_eq.
Qed.

(** X8. A snapshot that lists an order of size zero cannot be loaded:
    [add] takes a zero absolute size for a missing one and reads
    remaining_size, which a snapshot entry has not.  A message that needs a
    resync then makes [on_message] raise KeyError 'remaining_size'; the
    snapshot is consumed and the book keeps its old sequence. *)
Theorem zero_size_snapshot_stops_resync (self : OrderBook)
    (message : Message) (res : Snapshot) (rest : list Snapshot) :
  _client self = res :: rest →
  Exists (λ e, e_size e = 0) (res_bids res ++ res_asks res) →
  _sequence self = (-1)%Z ∨
    (default (-1) (m_sequence message) > _sequence self + 1)%Z →
  let out := on_message message self in
  out.1 = Raise (KeyError "remaining_size") ∧
  _client out.2 = rest ∧
  _sequence out.2 = _sequence self.
Proof.
  intros Hclient Hzero Hresync out. subst out.
  destruct (reset_book_zero_size (logged message self) res rest)
    as (book & Hreset & Hc & Hs); [done..|].
  destruct (decide (_sequence self = (-1)%Z)) as [Hseq|Hseq].
  - rewrite on_message_uninitialised by done. unfold bind.
    by rewrite Hreset.
  - destruct Hresync as [?|Hgap]; [done|].
    rewrite on_message_gap by done. unfold on_sequence_gap, bind.
    by rewrite Hreset.
Qed.

Lemma zero_size_snapshot_stops_resync_witness :
  let out := on_message (open_c 15) book_zero in
  out.1 = Raise (KeyError "remaining_size") ∧
  _client out.2 = [] ∧
  _sequence out.2 = _sequence book_zero.
Proof.
  apply (zero_size_snapshot_stops_resync book_zero (open_c 15)
           snap_zero []).
  - reflexivity.
  - right. left. reflexivity.
  - right. simpl. lia.
Defined.

(** ** Messages that change nothing *)

(** X9. An in-order message that is neither open, match nor change, nor a
    done that carries a price or the reason filled, changes no side: a
    received message returns [None], any other such message (a done of a
    cancelled market order, an unknown type) returns 'Untreated message
    type'; in both cases the sequence advances and the ticker is set. *)
Theorem untreated_message_only_advances (self : OrderBook)
    (message : Message) (msg_type : string) :
  _sequence self ≠ (-1)%Z →
  default (-1)%Z (m_sequence message) = (_sequence self + 1)%Z →
  m_type message = Some msg_type →
  msg_type ≠ "open" → msg_type ≠ "match" → msg_type ≠ "change" →
  (msg_type = "done" →
   m_price message = None ∧ m_reason message ≠ Some "filled") →
  on_message message self =
    (Ret (if decide (msg_type = "received") then RNone
          else RStr "Untreated message type"),
     set_sequence_field
       (set_ticker_field (logged message self) (m_product_id message))
       (_sequence self + 1)).
Proof.
  intros Hinit Hnext Htype Hopen Hmatch Hchange Hdone.
  rewrite on_message_in_order by done. rewrite Htype.
  unfold bind at 1, lift, getitem. unfold bind at 1, dispatch.
  rewrite decide_False by done.
  rewrite decide_False.
  2: { intros [Hd [x Hx]]. destruct (Hdone Hd) as [Hp _]. congruence. }
  rewrite decide_False.
  2: { intros [Hd Hr]. by destruct (Hdone Hd) as [_ ?]. }
  rewrite decide_False by done. rewrite decide_False by done.
  by destruct (decide (msg_type = "received")).
Qed.

Lemma untreated_message_only_advances_witness :
  on_message (feed_message 11 "done" "sell") book10 =
    (Ret (RStr "Untreated message type"),
     set_sequence_field
       (set_ticker_field (logged (feed_message 11 "done" "sell") book10)
          (Some "BTC-USD"))
       (_sequence book10 + 1)).
Proof.
  apply (untreated_message_only_advances book10
           (feed_message 11 "done" "sell") "done");
    [simpl; lia|reflexivity|reflexivity|discriminate..|].
  intros _. split; [reflexivity|discriminate].
Defined.

(** ** Levels are not left empty *)

Lemma on_message_keeps_levels_witness :
  book_ok book11 ∧ book_ok (on_message (change_c 12) book11).2.
Proof.
  assert (book_ok book11) as Hok.
  { split; intros p; unfold book11; simpl.
    - destruct (decide (p = dec 100)) as [->|Hne].
      + rewrite lookup_singleton_eq. discriminate.
      + rewrite lookup_singleton_ne by done. discriminate.
    - destruct (decide (p = dec 101)) as [->|Hne].
      + rewrite lookup_singleton_eq. discriminate.
      + rewrite lookup_singleton_ne by done. discriminate. }
  split; [exact Hok|].
  apply (on_message_keeps_levels book11 (change_c 12)); [|exact Hok].
  simpl; discriminate.
Defined.

(** ** Removal at a priced level *)

Lemma remove_loop (rid : option string) (level : list Order) :
  ∀ (kept : list Order) (size price : decimal) (found : bool),
    price ≠ -1 ∨ Forall (λ o, o_price o = price) level →
    foldl (remove_step rid) (kept, size, price, found) level =
      (kept ++ filter (λ o, Some (o_id o) ≠ rid) level,
       take_size size (filter (λ o, Some (o_id o) = rid) level),
       price,
       if decide (filter (λ o, Some (o_id o) = rid) level = [])
       then found else true).
Proof.
  induction level as [|o level IH]; intros kept size price found Hprice.
  { simpl. by rewrite app_nil_r. }
  assert (price ≠ -1 ∨ Forall (λ o, o_price o = price) level) as Hprice'.
  { destruct Hprice as [?|Hall]; [by left|right].
    by apply Forall_cons in Hall as [_ ?]. }
  cbn [foldl]. unfold remove_step at 2. rewrite !filter_cons.
  destruct (decide (Some (o_id o) ≠ rid)) as [Hne|Heq].
  - rewrite (decide_False (P := Some (o_id o) = rid)) by done.
    rewrite IH by done. by rewrite <- app_assoc.
  - apply dec_stable in Heq.
    rewrite (decide_True (P := Some (o_id o) = rid)) by done.
    assert ((if decide (price = -1) then o_price o else price) = price)
      as ->.
    { destruct (decide (price = -1)) as [Hp|]; [|done].
      destruct Hprice as [?|Hall]; [done|].
      by apply Forall_cons in Hall as [? _]. }
    rewrite IH by done. unfold take_size. simpl.
    by destruct (decide (filter _ level = [])).
Qed.

Lemma remove_at_level (self : OrderBook) (order : Message) (side : string)
    (level : list Order) :
  m_side order = Some side →
  let p := Decimal_of (default (NumDec (-1)) (m_price order)) in
  let size := Decimal_of (default (NumDec 0) (m_size order)) in
  let kept := filter (λ o, Some (o_id o) ≠ m_order_id order) level in
  let gone := filter (λ o, Some (o_id o) = m_order_id order) level in
  side_index side self !! p = Some level →
  p ≠ -1 ∨ Forall (λ o, o_price o = p) level →
  remove order self =
    (Ret (RPair (if decide (p = -1) then None else Some p)
            (- (if decide (gone = []) then 0 else take_size size gone))),
     set_side_index side self
       (if decide (kept = []) then delete p (side_index side self)
        else <[p := kept]> (side_index side self))).
Proof.
  intros Hside p size kept gone Hlevel Hprice.
  unfold remove, side_index, set_side_index in *. rewrite Hside.
  fold p size. unfold_M. simpl.
  destruct (decide (side = "buy")); rewrite Hlevel;
    rewrite (remove_loop _ level [] size p false Hprice);
    fold kept gone; simpl;
    (destruct kept as [|k kept'] eqn:Hkept; simpl;
     [unfold delitem; rewrite Hlevel; simpl|]);
    by destruct (decide (gone = [])).
Qed.

Lemma remove_no_level (self : OrderBook) (order : Message) (side : string) :
  m_side order = Some side →
  let p := Decimal_of (default (NumDec (-1)) (m_price order)) in
  side_index side self !! p = None →
  remove order self =
    (Ret (RPair (if decide (p = -1) then None else Some p) 0), self).
Proof.
  intros Hside p Hlevel.
  unfold remove, side_index in *. rewrite Hside. fold p. unfold_M. simpl.
  by destruct (decide (side = "buy")); rewrite Hlevel.
Qed.

(** X10. [remove] of an event with a side and a price other than -1: when
    there is no level at that price it returns [(price, 0)] and changes
    nothing; when there is one, every order of the level with the event's
    order_id is dropped (all of them, not only the first), the others stay
    in their order, the level is deleted when none is left, nothing else
    changes, and the result is [(price, -size)], where size is zero when
    no order had that id, else the event's size or, that being absent or
    zero, the size of the dropped order. *)
Theorem remove_drops_order (self : OrderBook) (order : Message)
    (side : string) (price : Numeric) :
  m_side order = Some side →
  m_price order = Some price →
  Decimal_of price ≠ -1 →
  let p := Decimal_of price in
  let index := side_index side self in
  let size := Decimal_of (default (NumDec 0) (m_size order)) in
  (index !! p = None →
   remove order self = (Ret (RPair (Some p) 0), self)) ∧
  (∀ level, index !! p = Some level →
     let kept := filter (λ o, Some (o_id o) ≠ m_order_id order) level in
     let gone := filter (λ o, Some (o_id o) = m_order_id order) level in
     remove order self =
       (Ret (RPair (Some p)
               (- (if decide (gone = []) then 0 else take_size size gone))),
        set_side_index side self
          (if decide (kept = []) then delete p index
           else <[p := kept]> index))).
Proof.
  intros Hside Hprice Hp p index size. subst p index size. split.
  - intros Hlevel.
    pose proof (remove_no_level self order side Hside) as Hremove.
    rewrite Hprice in Hremove. cbn [default] in Hremove.
    rewrite Hremove by done. by rewrite decide_False.
  - intros level Hlevel kept gone.
    pose proof (remove_at_level self order side level Hside) as Hremove.
    rewrite Hprice in Hremove. cbn [default] in Hremove.
    rewrite Hremove by auto. by rewrite decide_False.
Qed.

Lemma remove_drops_order_witness :
  remove (done_at 12 "a" 100) book11 =
    (Ret (RPair (Some (dec 100)) (- dec 2)),
     set_side_index "buy" book11 (<[dec 100 := [order_c]]> (_bids book11))) ∧
  remove (done_at 12 "a" 97) book11 =
    (Ret (RPair (Some (dec 97)) 0), book11).
Proof.
  pose proof (remove_drops_order book11 (done_at 12 "a" 100) "buy"
                (NumStr (dec 100)) eq_refl eq_refl
                ltac:(vm_compute; discriminate)) as [_ Hfound].
  pose proof (remove_drops_order book11 (done_at 12 "a" 97) "buy"
                (NumStr (dec 97)) eq_refl eq_refl
                ltac:(vm_compute; discriminate)) as [Habsent _].
  split.
  - apply (Hfound [order_a; order_c]). vm_compute; reflexivity.
  - apply Habsent. vm_compute; reflexivity.
Defined.

(** ** Adding, matching and removing in a row *)

Lemma filter_all {A} (P : A → Prop) `{∀ x, Decision (P x)} (l : list A) :
  Forall P l → filter P l = l.
Proof.
  induction 1 as [|x l Hx _ IH]; [done|].
  by rewrite filter_cons_True, IH.
Qed.

Lemma filter_none {A} (P : A → Prop) `{∀ x, Decision (P x)} (l : list A) :
  Forall (λ x, ¬ P x) l → filter P l = [].
Proof.
  induction 1 as [|x l Hx _ IH]; [done|].
  by rewrite filter_cons_False.
Qed.

Lemma side_index_set (side : string) (self : OrderBook)
    (index : gmap decimal (list Order)) :
  side_index side (set_side_index side self index) = index.
Proof.
  unfold side_index, set_side_index. by destruct (decide (side = "buy")).
Qed.

Lemma set_side_index_twice (side : string) (self : OrderBook)
    (index index' : gmap decimal (list Order)) :
  set_side_index side (set_side_index side self index) index' =
    set_side_index side self index'.
Proof.
  unfold set_side_index. by destruct (decide (side = "buy")).
Qed.

Lemma set_side_index_same (side : string) (self : OrderBook) :
  set_side_index side self (side_index side self) = self.
Proof.
  unfold side_index, set_side_index.
  by destruct (decide (side = "buy")), self.
Qed.

(** X11. Adding an order and then removing it by id and price gives back
    the book as it was: the level is as before the add (gone again when the
    order was alone in it), provided no order of that id was already
    resting there, the level was not an empty queue and the price is not
    -1.  The removal returns [(price, -size)] with the event's size or,
    that being absent or zero, the size the order was added with. *)
Theorem add_then_remove_restores (self : OrderBook) (order done : Message)
    (o : Order) (price : Numeric) :
  make_order order = Ret o →
  m_side done = Some (o_side o) →
  m_price done = Some price →
  Decimal_of price = o_price o →
  o_price o ≠ -1 →
  m_order_id done = Some (o_id o) →
  (∀ level, side_index (o_side o) self !! o_price o = Some level →
     level ≠ [] ∧ Forall (λ o', o_id o' ≠ o_id o) level) →
  let size := Decimal_of (default (NumDec 0) (m_size done)) in
  remove done (add order self).2 =
    (Ret (RPair (Some (o_price o))
            (- (if decide (size = 0) then o_size o else size))),
     self).
Proof.
  intros Ho Hside Hprice Hp Hsentinel Hid Hfresh size. subst size.
  rewrite (add_enqueues self order o Ho). cbn [snd].
  set (index := side_index (o_side o) self) in *.
  set (before := default [] (index !! o_price o)).
  pose proof (remove_at_level
                (set_side_index (o_side o) self (enqueue index o)) done
                (o_side o) (before ++ [o]) Hside) as Hremove.
  rewrite Hprice, Hid in Hremove. cbn [default from_option id] in Hremove.
  rewrite Hp in Hremove. rewrite side_index_set in Hremove.
  assert (Forall (λ o', o_id o' ≠ o_id o) before) as Hothers.
  { subst before. destruct (index !! o_price o) as [level|] eqn:Hlevel;
      [by apply Hfresh|constructor]. }
  assert (filter (λ o', Some (o_id o') ≠ Some (o_id o)) (before ++ [o])
          = before) as Hkept.
  { rewrite filter_app, (filter_singleton _ o []).
    rewrite decide_False by (intros Hne; by apply Hne).
    rewrite app_nil_r. apply filter_all.
    eapply Forall_impl; [exact Hothers|]. intros o' Hne. congruence. }
  assert (filter (λ o', Some (o_id o') = Some (o_id o)) (before ++ [o])
          = [o]) as Hgone.
  { rewrite filter_app, (filter_singleton _ o []), decide_True by done.
    rewrite filter_none; [done|].
    eapply Forall_impl; [exact Hothers|]. intros o' Hne. congruence. }
  rewrite Hkept, Hgone in Hremove.
  rewrite Hremove; [|unfold enqueue; by rewrite lookup_insert_eq|by left].
  rewrite decide_False by done. rewrite decide_False by done.
  rewrite set_side_index_twice. f_equal.
  replace (if decide (before = [])
           then delete (o_price o) (enqueue index o)
           else <[o_price o := before]> (enqueue index o)) with index.
  { apply set_side_index_same. }
  unfold enqueue. subst before.
  destruct (index !! o_price o) as [level|] eqn:Hlevel; cbn [default].
  - destruct (Hfresh level eq_refl) as [Hne _].
    rewrite decide_False by done.
    by rewrite insert_insert_eq, insert_id.
  - rewrite decide_True by done. by rewrite delete_insert_eq, delete_id.
Qed.

Lemma add_then_remove_restores_witness :
  remove (done_at 12 "c" 100) (add (open_c 11) book10).2 =
    (Ret (RPair (Some (dec 100)) (- dec 1)), book10).
Proof.
  apply (add_then_remove_restores book10 (open_c 11) (done_at 12 "c" 100)
           order_c (NumStr (dec 100)));
    [reflexivity..|vm_compute; discriminate|reflexivity|].
  intros level Hlevel. vm_compute in Hlevel. injection Hlevel as <-.
  split; [discriminate|]. repeat constructor. vm_compute; discriminate.
Defined.

(** X12. A match of the whole size of the head order, followed by the
    done message for that order (same side, same price, not -1): the
    match leaves the rest of the queue at the price, and it is the removal
    that deletes the level when that rest is empty.  The removal finds no
    order of that id any more, so it returns [(price, 0)]. *)
Theorem match_then_done_clears_level (self : OrderBook)
    (order done : Message) (size price price' : Numeric)
    (side maker : string) (b0 : Order) (rest : list Order) :
  m_size order = Some size →
  m_price order = Some price →
  m_side order = Some side →
  m_maker_order_id order = Some maker →
  side_index side self !! Decimal_of price = Some (b0 :: rest) →
  o_id b0 = maker →
  o_size b0 = Decimal_of size →
  Forall (λ o, o_id o ≠ maker) rest →
  m_side done = Some side →
  m_price done = Some price' →
  Decimal_of price' = Decimal_of price →
  Decimal_of price ≠ -1 →
  m_order_id done = Some maker →
  let p := Decimal_of price in
  let index := side_index side self in
  (match_ order self).2 = set_side_index side self (<[p := rest]> index) ∧
  remove done (match_ order self).2 =
    (Ret (RPair (Some p) 0),
     set_side_index side self
       (if decide (rest = []) then delete p index else <[p := rest]> index)).
Proof.
  intros Hsize Hprice Hside Hmaker Hlevel Hid Hfull Hrest
    Hdside Hdprice Hp Hsentinel Hdid p index. subst p index.
  rewrite (match_head_consumes self order size price side maker b0 rest)
    by done.
  rewrite decide_True by done. cbn [snd]. split; [done|].
  pose proof (remove_at_level
                (set_side_index side self
                   (<[Decimal_of price := rest]> (side_index side self)))
                done side rest Hdside) as Hremove.
  rewrite Hdprice, Hdid in Hremove. cbn [default from_option id] in Hremove.
  rewrite Hp, side_index_set in Hremove.
  rewrite (filter_all (λ o, Some (o_id o) ≠ Some maker)) in Hremove.
  2: { eapply Forall_impl; [exact Hrest|]. intros o Hne. congruence. }
  rewrite (filter_none (λ o, Some (o_id o) = Some maker)) in Hremove.
  2: { eapply Forall_impl; [exact Hrest|]. intros o Hne. congruence. }
  rewrite Hremove; [|by rewrite lookup_insert_eq|by left].
  rewrite decide_False by done. rewrite decide_True by done.
  rewrite set_side_index_twice. do 2 f_equal.
  destruct (decide (rest = [])).
  - by rewrite delete_insert_eq.
  - by rewrite insert_insert_eq.
Qed.

Lemma match_then_done_clears_level_witness :
  (match_ (match_at_100 11 "a" 2) book10).2 =
    set_side_index "buy" book10 (<[dec 100 := []]> (_bids book10)) ∧
  remove (done_at 12 "a" 100) (match_ (match_at_100 11 "a" 2) book10).2 =
    (Ret (RPair (Some (dec 100)) 0),
     set_side_index "buy" book10 (delete (dec 100) (_bids book10))).
Proof.
  apply (match_then_done_clears_level book10 (match_at_100 11 "a" 2)
           (done_at 12 "a" 100) (NumStr (dec 2)) (NumStr (dec 100))
           (NumStr (dec 100)) "buy" "a" order_a []);
    try reflexivity.
  - constructor.
  - vm_compute; discriminate.
Defined.

(** X13. A match whose maker is the head of the level at the traded
    price: when the traded size is the head's size the level becomes the
    rest of the queue (it stays in the index even when that rest is
    empty); otherwise the head stays first, with its id, side and price,
    and its size is the old size minus the traded size.  The orders behind
    the head are untouched, the size resting at the price goes down by
    exactly the traded size in both cases, no other level changes, and the
    result is [(price, -size)]. *)
Theorem match_consumes_head (self : OrderBook) (order : Message)
    (size price : Numeric) (side maker : string) (b0 : Order)
    (rest : list Order) :
  m_size order = Some size →
  m_price order = Some price →
  m_side order = Some side →
  m_maker_order_id order = Some maker →
  side_index side self !! Decimal_of price = Some (b0 :: rest) →
  o_id b0 = maker →
  let p := Decimal_of price in
  let traded := Decimal_of size in
  ∃ level',
    match_ order self =
      (Ret (RPair (Some p) (- traded)),
       set_side_index side self (<[p := level']> (side_index side self))) ∧
    (o_size b0 = traded → level' = rest) ∧
    (o_size b0 ≠ traded →
     ∃ head,
       level' = head :: rest ∧
       o_size head = o_size b0 - traded ∧
       o_id head = o_id b0 ∧
       o_side head = o_side b0 ∧
       o_price head = o_price b0) ∧
    depth level' = depth (b0 :: rest) - traded.
Proof.
  intros Hsize Hprice Hside Hmaker Hlevel Hid p traded. subst p traded.
  rewrite (match_head_consumes self order size price side maker b0 rest)
    by done.
  destruct (decide (o_size b0 = Decimal_of size)) as [Hfull|Hpart].
  - exists rest. split; [done|]. split; [done|]. split; [done|].
    simpl. rewrite Hfull. ring.
  - exists (mkOrder (o_id b0) (o_side b0) (o_price b0)
              (o_size b0 - Decimal_of size) :: rest).
    split; [done|]. split; [done|].
    split; [intros _; by eexists|].
    simpl. ring.
Qed.

Lemma match_consumes_head_witness :
  ∃ level',
    match_ (match_at_100 12 "a" 1) book11 =
      (Ret (RPair (Some (dec 100)) (- dec 1)),
       set_side_index "buy" book11 (<[dec 100 := level']> (_bids book11))) ∧
    (o_size order_a = dec 1 → level' = [order_c]) ∧
    (o_size order_a ≠ dec 1 →
     ∃ head,
       level' = [head; order_c] ∧
       o_size head = o_size order_a - dec 1 ∧
       o_id head = o_id order_a ∧
       o_side head = o_side order_a ∧
       o_price head = o_price order_a) ∧
    depth level' = depth [order_a; order_c] - dec 1.
Proof.
  apply (match_consumes_head book11 (match_at_100 12 "a" 1)
           (NumStr (dec 1)) (NumStr (dec 100)) "buy" "a" order_a [order_c]);
    reflexivity.
Defined.

(** ** Orders rest at their own price *)

Lemma side_keyed_empty : side_keyed ∅.
Proof. intros p level. by rewrite lookup_empty. Qed.

Lemma side_keyed_insert (d : gmap decimal (list Order)) (p : decimal)
    (level : list Order) :
  side_keyed d → Forall (λ o, o_price o = p) level →
  side_keyed (<[p := level]> d).
Proof.
  intros Hd Hlevel q l. destruct (decide (p = q)) as [->|Hne].
  - rewrite lookup_insert_eq. by intros [= <-].
  - rewrite lookup_insert_ne by done. apply Hd.
Qed.

Lemma side_keyed_delete (d : gmap decimal (list Order)) (p : decimal) :
  side_keyed d → side_keyed (delete p d).
Proof.
  intros Hd q l. destruct (decide (p = q)) as [->|Hne].
  - by rewrite lookup_delete_eq.
  - rewrite lookup_delete_ne by done. apply Hd.
Qed.

Lemma side_keyed_side_index (side : string) (self : OrderBook) :
  book_keyed self → side_keyed (side_index side self).
Proof.
  intros [Hb Ha]. unfold side_index. by destruct (decide (side = "buy")).
Qed.

Lemma book_keyed_set_side_index (side : string) (self : OrderBook)
    (index : gmap decimal (list Order)) :
  book_keyed self → side_keyed index →
  book_keyed (set_side_index side self index).
Proof.
  intros [Hb Ha] Hindex. unfold set_side_index.
  by destruct (decide (side = "buy")).
Qed.

Lemma Forall_filter_keeps {A} (P Q : A → Prop) `{∀ x, Decision (Q x)}
    (l : list A) :
  Forall P l → Forall P (filter Q l).
Proof.
  rewrite !Forall_forall. intros Hall x Hx.
  apply list_elem_of_filter in Hx as [_ Hx]. by apply Hall.
Qed.

Lemma keyed_add (order : Message) : preserves book_keyed (add order).
Proof.
  intros self Hself. destruct (make_order order) as [o|e] eqn:Ho.
  - rewrite (add_enqueues _ _ _ Ho). cbn [snd].
    apply book_keyed_set_side_index; [done|].
    pose proof (side_keyed_side_index (o_side o) self Hself) as Hside.
    unfold enqueue. apply side_keyed_insert; [done|].
    apply Forall_app. split; [|by constructor].
    destruct (side_index (o_side o) self !! o_price o) as [level|] eqn:Hl;
      [by eapply Hside|constructor].
  - unfold add, bind, lift. by rewrite Ho.
Qed.

Lemma keyed_remove (order : Message) : preserves book_keyed (remove order).
Proof.
  intros self Hself.
  destruct (m_side order) as [side|] eqn:Hside.
  - pose proof (side_keyed_side_index side self Hself) as Hkeyed.
    set (p := Decimal_of (default (NumDec (-1)) (m_price order))).
    destruct (side_index side self !! p) as [level|] eqn:Hl.
    + rewrite (remove_at_level self order side level Hside Hl)
        by (right; by eapply Hkeyed).
      cbn [snd]. apply book_keyed_set_side_index; [done|].
      destruct (decide _).
      * by apply side_keyed_delete.
      * apply side_keyed_insert; [done|].
        apply Forall_filter_keeps. by eapply Hkeyed.
    + by rewrite (remove_no_level self order side Hside Hl).
  - unfold remove, bind, lift. by rewrite Hside.
Qed.

Lemma keyed_match (order : Message) : preserves book_keyed (match_ order).
Proof.
  intros self Hself. unfold match_. unfold bind at 1, lift.
  destruct (m_size order) as [size|]; [|done]. cbn [getitem].
  unfold bind at 1.
  destruct (m_price order) as [price|]; [|done]. cbn [getitem].
  unfold bind at 1.
  destruct (m_side order) as [side|] eqn:Hside; [|done]. cbn [getitem].
  pose proof (side_keyed_side_index side self Hself) as Hkeyed.
  unfold side_index in Hkeyed. destruct Hself as [Hb Ha].
  destruct (decide (side = "buy")).
  - unfold bind at 1, get_bids. cbn [fst snd].
    destruct (_bids self !! Decimal_of price) as [[|b0 rest]|] eqn:Hl;
      [done| |done].
    unfold bind at 1, lift.
    destruct (m_maker_order_id order) as [maker|]; [|done]. cbn [getitem].
    unfold bind at 1, assert.
    destruct (bool_decide (o_id b0 = maker)); [|done]. unfold ret at 1.
    specialize (Hkeyed _ _ Hl). apply Forall_cons in Hkeyed as [Hb0 Hrest].
    destruct (decide (o_size b0 = Decimal_of size));
      (split; [|done]); apply side_keyed_insert; auto.
  - unfold bind at 1, get_asks. cbn [fst snd].
    destruct (_asks self !! Decimal_of price) as [[|a0 rest]|] eqn:Hl;
      [done| |done].
    unfold bind at 1, lift.
    destruct (m_maker_order_id order) as [maker|]; [|done]. cbn [getitem].
    unfold bind at 1, assert.
    destruct (bool_decide (o_id a0 = maker)); [|done]. unfold ret at 1.
    specialize (Hkeyed _ _ Hl). apply Forall_cons in Hkeyed as [Ha0 Hrest].
    destruct (decide (o_size a0 = Decimal_of size));
      (split; [done|]); apply side_keyed_insert; auto.
Qed.

Lemma change_check_state (order : Message) (side : string)
    (price new_size old_size : decimal) (self : OrderBook) :
  (change_check order side price new_size old_size self).2 = self.
Proof.
  unfold change_check, bind, lift, get_bids, get_asks, ret.
  destruct (is_bid_side side) as [[|]|e]; cbn [fst snd]; [| |done].
  - by destruct (missing_in order (_bids self !! price)) as [[|]|e].
  - by destruct (missing_in order (_asks self !! price)) as [[|]|e].
Qed.

Lemma resize_keeps_prices (oid : string) (new_size old_size p : decimal)
    (level level' : list Order) :
  resize oid new_size level = Some (old_size, level') →
  Forall (λ o, o_price o = p) level →
  Forall (λ o, o_price o = p) level'.
Proof.
  unfold resize. destruct (list_find _ level) as [[i o]|] eqn:Hfind; [|done].
  intros [= _ <-] Hall. apply list_find_Some in Hfind as (Hi & _ & _).
  apply Forall_insert; [done|]. simpl.
  by apply (Forall_lookup_1 _ _ _ _ Hall Hi).
Qed.

Lemma keyed_change (order : Message) : preserves book_keyed (change order).
Proof.
  intros self Hself. unfold change.
  destruct (m_new_size order) as [new_size|]; [|done].
  destruct (m_price order) as [price|]; [|done].
  unfold bind at 1, lift.
  destruct (m_side order) as [side|]; [|done]. cbn [getitem].
  destruct Hself as [Hb Ha].
  destruct (decide (side = "buy")).
  - unfold bind at 1, get_bids. cbn [fst snd]. unfold bind at 1, lift.
    destruct (missing_in order (_bids self !! Decimal_of price))
      as [[|]|e']; [done| |done].
    unfold bind at 1.
    destruct (getitem "order_id" (m_order_id order)) as [oid|e']; [|done].
    destruct (resize oid _ _) as [[old_size level']|] eqn:Hresize; [|done].
    unfold bind at 1, set_bids. rewrite change_check_state.
    split; [|done]. apply side_keyed_insert; [done|].
    eapply resize_keeps_prices; [exact Hresize|].
    destruct (_bids self !! Decimal_of price) as [level|] eqn:Hl;
      [by eapply Hb|constructor].
  - unfold bind at 1, get_asks. cbn [fst snd]. unfold bind at 1, lift.
    destruct (missing_in order (_asks self !! Decimal_of price))
      as [[|]|e']; [done| |done].
    unfold bind at 1.
    destruct (getitem "order_id" (m_order_id order)) as [oid|e']; [|done].
    destruct (resize oid _ _) as [[old_size level']|] eqn:Hresize; [|done].
    unfold bind at 1, set_asks. rewrite change_check_state.
    split; [done|]. apply side_keyed_insert; [done|].
    eapply resize_keeps_prices; [exact Hresize|].
    destruct (_asks self !! Decimal_of price) as [level|] eqn:Hl;
      [by eapply Ha|constructor].
Qed.

Lemma keyed_reset_book (self : OrderBook) : book_keyed (reset_book self).2.
Proof.
  unfold reset_book, bind at 1, clear_sides. simpl.
  apply (preserves_bind (I := book_keyed)).
  - intros self'. unfold get_product_order_book.
    by destruct (_client self').
  - intros res. apply preserves_bind.
    { apply preserves_for_each. intros bid. apply keyed_add. }
    intros _. apply preserves_bind; [|by intros _ book].
    apply preserves_for_each. intros ask. apply keyed_add.
  - split; apply side_keyed_empty.
Qed.

(** X14. Every message keeps every order in the level of its own price:
    if each order of the book rests at the key equal to its price, so it
    does after [on_message], whatever the message is and whether the
    handler returns or raises. *)
Theorem on_message_keeps_orders_keyed (self : OrderBook)
    (message : Message) :
  book_keyed self → book_keyed (on_message message self).2.
Proof.
  intros Hself.
  assert (book_keyed (logged message self)) as Hlogged by done.
  destruct (decide (_sequence self = (-1)%Z)) as [Huninit|Hinit].
  { rewrite on_message_uninitialised by done. unfold bind.
    pose proof (keyed_reset_book (logged message self)) as Hreset.
    by destruct (reset_book (logged message self)) as [[[]|e] self']. }
  destruct (decide (default (-1) (m_sequence message) ≤ _sequence self)%Z).
  { by rewrite on_message_stale. }
  destruct (decide (default (-1) (m_sequence message) > _sequence self + 1)%Z).
  { rewrite on_message_gap by done. unfold on_sequence_gap, bind.
    pose proof (keyed_reset_book (logged message self)) as Hreset.
    by destruct (reset_book (logged message self)) as [[[]|e] self']. }
  rewrite on_message_in_order by (done || lia).
  destruct (m_type message) as [msg_type|] eqn:Hmsg_type; [|done].
  unfold bind at 1, lift, getitem.
  revert Hlogged. generalize (logged message self).
  apply (preserves_bind (I := book_keyed)).
  - unfold dispatch.
    repeat case_decide;
      try apply keyed_add; try apply keyed_remove; try apply keyed_match;
      try apply keyed_change; try apply preserves_ret.
  - intros book_change. apply preserves_bind; [by intros self'|].
    intros _. apply preserves_bind; [by intros self'|].
    intros _. apply preserves_ret.
Qed.

Lemma book11_keyed : book_keyed book11.
Proof.
  split; intros p level; unfold book11; simpl.
  - destruct (decide (dec 100 = p)) as [<-|Hne].
    + rewrite lookup_singleton_eq. intros [= <-]. by repeat constructor.
    + by rewrite lookup_singleton_ne.
  - destruct (decide (dec 101 = p)) as [<-|Hne].
    + rewrite lookup_singleton_eq. intros [= <-]. by repeat constructor.
    + by rewrite lookup_singleton_ne.
Defined.

Lemma on_message_keeps_orders_keyed_witness :
  book_keyed (on_message (match_at_100 12 "a" 1) book11).2.
Proof.
  apply (on_message_keeps_orders_keyed book11 (match_at_100 12 "a" 1)).
  exact book11_keyed.
Defined.

(** ** The dump of the book *)

Lemma dump_level_rows (level : list Order) (rows : list Entry) :
  foldl (λ rows order, rows ++ [order_row order]) rows level =
    rows ++ (order_row <$> level).
Proof.
  revert rows. induction level as [|o level IH]; intros rows; simpl.
  - by rewrite app_nil_r.
  - rewrite IH. by rewrite <- app_assoc.
Qed.

Lemma dump_keys (d : gmap decimal (list Order)) (keys : list decimal)
    (rows : list Entry) :
  foldl (λ rows key,
           match d !! key with
           | Some level =>
               foldl (λ rows order, rows ++ [order_row order]) rows level
           | None => rows
           end) rows keys =
    rows ++ (keys ≫= level_rows d).
Proof.
  revert rows. induction keys as [|k keys IH]; intros rows.
  - simpl. by rewrite app_nil_r.
  - cbn [foldl]. rewrite IH. rewrite bind_cons, app_assoc. f_equal.
    unfold level_rows. destruct (d !! k) as [level|]; simpl.
    + apply dump_level_rows.
    + by rewrite app_nil_r.
Qed.

Lemma dump_side_rows (d : gmap decimal (list Order)) :
  dump_side d = sorted_keys d ≫= level_rows d.
Proof. unfold dump_side. by rewrite dump_keys. Qed.

Lemma level_rows_prices (d : gmap decimal (list Order)) (k : decimal) :
  side_keyed d → Forall (λ e, e_price e = k) (level_rows d k).
Proof.
  intros Hd. unfold level_rows.
  destruct (d !! k) as [level|] eqn:Hl; [|constructor].
  simpl. apply Forall_fmap. by eapply Hd.
Qed.

Lemma rows_at_price (d : gmap decimal (list Order)) (keys : list decimal)
    (p : decimal) :
  side_keyed d → NoDup keys →
  filter (λ e, e_price e = p) (keys ≫= level_rows d) =
    if decide (p ∈ keys) then level_rows d p else [].
Proof.
  intros Hd. induction 1 as [|k keys Hk Hkeys IH]; [done|].
  rewrite bind_cons, filter_app, IH.
  pose proof (level_rows_prices d k Hd) as Hrows.
  destruct (decide (k = p)) as [->|Hne].
  - rewrite filter_all by done.
    rewrite decide_False by done. rewrite decide_True by (by left).
    by rewrite app_nil_r.
  - rewrite filter_none.
    2: { eapply Forall_impl; [exact Hrows|]. intros e He. congruence. }
    destruct (decide (p ∈ keys)) as [Hin|Hnin].
    + by rewrite decide_True by (by right).
    + rewrite decide_False; [done|].
      intros [?|?]%elem_of_cons; congruence.
Qed.

Lemma sorted_keys_NoDup {V} (d : gmap decimal V) : NoDup (sorted_keys d).
Proof.
  unfold sorted_keys. rewrite merge_sort_Permutation.
  apply NoDup_fst_map_to_list.
Qed.

Lemma dump_side_at_price (d : gmap decimal (list Order)) (p : decimal) :
  side_keyed d →
  filter (λ e, e_price e = p) (dump_side d) = level_rows d p.
Proof.
  intros Hd. rewrite dump_side_rows, rows_at_price
    by auto using sorted_keys_NoDup.
  destruct (decide (p ∈ sorted_keys d)) as [|Hnin]; [done|].
  unfold level_rows. destruct (d !! p) as [level|] eqn:Hl; [|done].
  destruct Hnin. apply sorted_keys_elem. eauto.
Qed.

Lemma rows_sorted (d : gmap decimal (list Order)) (keys : list decimal) :
  side_keyed d → StronglySorted Qcle keys →
  StronglySorted Qcle (e_price <$> (keys ≫= level_rows d)).
Proof.
  intros Hd. induction 1 as [|k keys Hsorted IH Hall]; [constructor|].
  rewrite bind_cons, fmap_app.
  pose proof (level_rows_prices d k Hd) as Hrows.
  apply StronglySorted_app_2; [| |done].
  - intros x y Hx Hy.
    apply list_elem_of_fmap in Hx as (e & -> & He).
    apply list_elem_of_fmap in Hy as (e' & -> & He').
    apply list_elem_of_bind in He' as (k' & He' & Hk').
    rewrite Forall_forall in Hrows. rewrite (Hrows e He).
    pose proof (level_rows_prices d k' Hd) as Hrows'.
    rewrite Forall_forall in Hrows'. rewrite (Hrows' e' He').
    rewrite Forall_forall in Hall. by apply Hall.
  - induction Hrows as [|e rows He Hrows IHrows]; [constructor|].
    rewrite fmap_cons. constructor; [done|].
    apply Forall_fmap. eapply Forall_impl; [exact Hrows|].
    intros e' He'. simpl. rewrite He, He'. apply Qcle_refl.
Qed.

(** X15. [get_current_book] never raises and leaves the book alone.  On
    a book whose orders rest at their own prices its dump has the book's
    sequence; on each side the rows at a price are the orders of that
    level, as [price, size, id], in queue order; and the rows of both
    sides run by ascending price (the bids too: the best bid comes
    last). *)
Theorem get_current_book_dumps_levels (self : OrderBook) :
  book_keyed self →
  ∃ dump,
    get_current_book self = (Ret dump, self) ∧
    res_sequence dump = _sequence self ∧
    (∀ p, filter (λ e, e_price e = p) (res_bids dump) =
            order_row <$> default [] (_bids self !! p)) ∧
    (∀ p, filter (λ e, e_price e = p) (res_asks dump) =
            order_row <$> default [] (_asks self !! p)) ∧
    StronglySorted Qcle (e_price <$> res_bids dump) ∧
    StronglySorted Qcle (e_price <$> res_asks dump).
Proof.
  intros [Hb Ha]. eexists. split; [reflexivity|]. cbn.
  split; [done|].
  split; [intros p; by apply dump_side_at_price|].
  split; [intros p; by apply dump_side_at_price|].
  rewrite !dump_side_rows.
  split; apply rows_sorted; auto using sorted_keys_sorted.
Qed.

Lemma get_current_book_dumps_levels_witness :
  ∃ dump,
    get_current_book book11 = (Ret dump, book11) ∧
    res_sequence dump = _sequence book11 ∧
    (∀ p, filter (λ e, e_price e = p) (res_bids dump) =
            order_row <$> default [] (_bids book11 !! p)) ∧
    (∀ p, filter (λ e, e_price e = p) (res_asks dump) =
            order_row <$> default [] (_asks book11 !! p)) ∧
    StronglySorted Qcle (e_price <$> res_bids dump) ∧
    StronglySorted Qcle (e_price <$> res_asks dump).
Proof. apply (get_current_book_dumps_levels book11), book11_keyed. Defined.

Example get_current_book_book11 :
  (get_current_book book11).1 =
    Ret (mkSnapshot 11
           [mkEntry (dec 100) (dec 2) "a"; mkEntry (dec 100) (dec 1) "c"]
           [mkEntry (dec 101) (dec 3) "b"]).
Proof. vm_compute. reflexivity. Qed.

(** ** Resynchronising from a dump *)

Lemma side_loadable_keyed (side : string) (d : gmap decimal (list Order)) :
  side_loadable side d → side_keyed d.
Proof.
  intros Hd p level Hl. destruct (Hd p level Hl) as [_ Hall].
  eapply Forall_impl; [exact Hall|]. by intros o (? & _ & _).
Qed.

Lemma dump_side_sizes (side : string) (d : gmap decimal (list Order)) :
  side_loadable side d → Forall (λ e, e_size e ≠ 0) (dump_side d).
Proof.
  intros Hd. rewrite dump_side_rows. apply Forall_forall. intros e He.
  apply list_elem_of_bind in He as (k & He & _).
  unfold level_rows in He. destruct (d !! k) as [level|] eqn:Hl;
    [|by apply elem_of_nil in He].
  apply list_elem_of_fmap in He as (o & -> & Ho).
  destruct (Hd k level Hl) as [_ Hall]. rewrite Forall_forall in Hall.
  by destruct (Hall o Ho) as (_ & _ & ?).
Qed.

Lemma entry_order_row (side : string) (o : Order) :
  o_side o = side → entry_order side (order_row o) = o.
Proof. intros <-. by destruct o. Qed.

Lemma load_dump_side (side : string) (d : gmap decimal (list Order)) :
  side_loadable side d →
  foldl enqueue ∅ (entry_order side <$> dump_side d) = d.
Proof.
  intros Hd. apply map_eq. intros p.
  rewrite snapshot_index_lookup. unfold snapshot_level.
  rewrite dump_side_at_price by (by eapply side_loadable_keyed).
  unfold level_rows. destruct (d !! p) as [level|] eqn:Hl; [|done].
  destruct (Hd p level Hl) as [Hne Hall]. cbn [default].
  assert (entry_order side <$> (order_row <$> level) = level) as Hid.
  { rewrite <- list_fmap_compose. rewrite <- (list_fmap_id level) at 2.
    apply Forall_fmap_ext_1.
    eapply Forall_impl; [exact Hall|]. intros o' (_ & Hside & _).
    by apply entry_order_row. }
  destruct level as [|o level]; [done|].
  simpl in Hid |- *. by f_equal.
Qed.

(** X16. A dump is a snapshot the book can be rebuilt from: when no
    level is empty and every order rests at its own price, carries its
    side's name ('buy' among the bids, 'sell' among the asks) and a size
    other than zero, a resync of any book whose snapshot service answers
    the dump of [self] ends with the bids, the asks and the sequence of
    [self]. *)
Theorem resync_from_dump_restores (self other : OrderBook)
    (dump : Snapshot) (rest : list Snapshot) :
  side_loadable "buy" (_bids self) →
  side_loadable "sell" (_asks self) →
  get_current_book self = (Ret dump, self) →
  _client other = dump :: rest →
  let out := reset_book other in
  out.1 = Ret () ∧
  _bids out.2 = _bids self ∧
  _asks out.2 = _asks self ∧
  _sequence out.2 = _sequence self ∧
  _client out.2 = rest.
Proof.
  intros Hbids Hasks [= <-] Hclient out. subst out.
  rewrite (reset_book_loads other _ rest Hclient);
    [|by eapply dump_side_sizes..].
  cbn. by rewrite !load_dump_side.
Qed.

Lemma book11_loadable :
  side_loadable "buy" (_bids book11) ∧ side_loadable "sell" (_asks book11).
Proof.
  split; intros p level; unfold book11; simpl.
  - destruct (decide (dec 100 = p)) as [<-|Hne].
    + rewrite lookup_singleton_eq. intros [= <-].
      split; [discriminate|].
      repeat constructor; vm_compute; discriminate.
    + by rewrite lookup_singleton_ne.
  - destruct (decide (dec 101 = p)) as [<-|Hne].
    + rewrite lookup_singleton_eq. intros [= <-].
      split; [discriminate|].
      repeat constructor; vm_compute; discriminate.
    + by rewrite lookup_singleton_ne.
Defined.

Lemma resync_from_dump_restores_witness :
  let out := reset_book book_from_dump in
  out.1 = Ret () ∧
  _bids out.2 = _bids book11 ∧
  _asks out.2 = _asks book11 ∧
  _sequence out.2 = _sequence book11 ∧
  _client out.2 = [].
Proof.
  apply (resync_from_dump_restores book11 book_from_dump dump11 []).
  - exact (proj1 book11_loadable).
  - exact (proj2 book11_loadable).
  - vm_compute; reflexivity.
  - reflexivity.
Defined.

(** ** The best prices after an add *)

Lemma peekitem_last_is {V} (d : gmap decimal V) (k : decimal) (v : V) :
  d !! k = Some v →
  (∀ q, is_Some (d !! q) → q ≤ k) →
  peekitem d (-1) = Ret (k, v).
Proof.
  intros Hk Hmax.
  destruct (peekitem_last d) as (k' & v' & -> & Hk' & Hmax').
  { intros ->. by rewrite lookup_empty in Hk. }
  assert (k' = k) as ->.
  { apply Qcle_antisym; [apply Hmax|apply Hmax']; eauto. }
  congruence.
Qed.

Lemma peekitem_first_is {V} (d : gmap decimal V) (k : decimal) (v : V) :
  d !! k = Some v →
  (∀ q, is_Some (d !! q) → k ≤ q) →
  peekitem d 0 = Ret (k, v).
Proof.
  intros Hk Hmin.
  destruct (peekitem_first d) as (k' & v' & -> & Hk' & Hmin').
  { intros ->. by rewrite lookup_empty in Hk. }
  assert (k' = k) as ->.
  { apply Qcle_antisym; [apply Hmin'|apply Hmin]; eauto. }
  congruence.
Qed.

(** X17. The best prices follow an add.  After [add] has stored a buy
    order, [get_bid] answers the greater of the order's price and the
    best bid there was (the order's price when there was no bid); after it
    has stored an order of another side, [get_ask] answers the lesser of
    the order's price and the best ask there was. *)
Theorem best_price_after_add (self : OrderBook) (order : Message)
    (o : Order) :
  make_order order = Ret o →
  let after := (add order self).2 in
  (o_side o = "buy" →
   ∃ best, get_bid after = (Ret best, after) ∧
     o_price o ≤ best ∧
     (best = o_price o ∨ get_bid self = (Ret best, self)) ∧
     (∀ old, get_bid self = (Ret old, self) → old ≤ best)) ∧
  (o_side o ≠ "buy" →
   ∃ best, get_ask after = (Ret best, after) ∧
     best ≤ o_price o ∧
     (best = o_price o ∨ get_ask self = (Ret best, self)) ∧
     (∀ old, get_ask self = (Ret old, self) → best ≤ old)).
Proof.
  intros Ho after. subst after. rewrite (add_enqueues _ _ _ Ho). cbn [snd].
  unfold set_side_index, side_index, enqueue, get_bid, get_ask.
  split; intros Hside.
  - destruct (decide (o_side o = "buy")) as [_|]; [|done].
    cbn [_bids set_bids_field].
    set (d := <[o_price o := default [] (_bids self !! o_price o) ++ [o]]>
                (_bids self)).
    destruct (peekitem_last d) as (best & v & Hpeek & Hbest & Hmax).
    { intros Hempty. apply (f_equal (λ m, m !! o_price o)) in Hempty.
      subst d. by rewrite lookup_insert_eq, lookup_empty in Hempty. }
    exists best. rewrite Hpeek. split; [done|].
    assert (o_price o ≤ best) as Hle.
    { apply Hmax. subst d. rewrite lookup_insert_eq. eauto. }
    split; [done|].
    assert (∀ q, is_Some (_bids self !! q) → q ≤ best) as Hold.
    { intros q Hq. apply Hmax. subst d.
      destruct (decide (o_price o = q)) as [->|Hne];
        [rewrite lookup_insert_eq; eauto|by rewrite lookup_insert_ne]. }
    split.
    + destruct (decide (best = o_price o)) as [|Hne]; [by left|right].
      subst d. rewrite lookup_insert_ne in Hbest by done.
      by rewrite (peekitem_last_is _ best v).
    + intros old Hget.
      destruct (peekitem (_bids self) (-1)) as [[k w]|e] eqn:Hk; [|done].
      simplify_eq/=. apply Hold.
      destruct (peekitem_last (_bids self)) as (k' & w' & Hk' & Hin & _).
      { intros Hempty. by rewrite (peekitem_empty _ _ Hempty) in Hk. }
      rewrite Hk in Hk'. simplify_eq. eauto.
  - destruct (decide (o_side o = "buy")) as [|_]; [done|].
    cbn [_asks set_asks_field].
    set (d := <[o_price o := default [] (_asks self !! o_price o) ++ [o]]>
                (_asks self)).
    destruct (peekitem_first d) as (best & v & Hpeek & Hbest & Hmin).
    { intros Hempty. apply (f_equal (λ m, m !! o_price o)) in Hempty.
      subst d. by rewrite lookup_insert_eq, lookup_empty in Hempty. }
    exists best. rewrite Hpeek. split; [done|].
    assert (best ≤ o_price o) as Hle.
    { apply Hmin. subst d. rewrite lookup_insert_eq. eauto. }
    split; [done|].
    assert (∀ q, is_Some (_asks self !! q) → best ≤ q) as Hold.
    { intros q Hq. apply Hmin. subst d.
      destruct (decide (o_price o = q)) as [->|Hne];
        [rewrite lookup_insert_eq; eauto|by rewrite lookup_insert_ne]. }
    split.
    + destruct (decide (best = o_price o)) as [|Hne]; [by left|right].
      subst d. rewrite lookup_insert_ne in Hbest by done.
      by rewrite (peekitem_first_is _ best v).
    + intros old Hget.
      destruct (peekitem (_asks self) 0) as [[k w]|e] eqn:Hk; [|done].
      simplify_eq/=. apply Hold.
      destruct (peekitem_first (_asks self)) as (k' & w' & Hk' & Hin & _).
      { intros Hempty. by rewrite (peekitem_empty _ _ Hempty) in Hk. }
      rewrite Hk in Hk'. simplify_eq. eauto.
Qed.

Lemma best_price_after_add_witness :
  (∃ best, get_bid (add (open_h 11) book10).2 =
             (Ret best, (add (open_h 11) book10).2) ∧
     dec 105 ≤ best ∧
     (best = dec 105 ∨ get_bid book10 = (Ret best, book10)) ∧
     (∀ old, get_bid book10 = (Ret old, book10) → old ≤ best)) ∧
  (∃ best, get_ask (add (open_k 11) book10).2 =
             (Ret best, (add (open_k 11) book10).2) ∧
     best ≤ dec 99 ∧
     (best = dec 99 ∨ get_ask book10 = (Ret best, book10)) ∧
     (∀ old, get_ask book10 = (Ret old, book10) → best ≤ old)).
Proof.
  split.
  - apply (proj1 (best_price_after_add book10 (open_h 11)
                    (mkOrder "h" "buy" (dec 105) (dec 1)) eq_refl)).
    reflexivity.
  - apply (proj2 (best_price_after_add book10 (open_k 11)
                    (mkOrder "k" "sell" (dec 99) (dec 2)) eq_refl)).
    discriminate.
Defined.

Example best_bid_after_open_h :
  get_bid book10 = (Ret (dec 100), book10) ∧
  (get_bid (add (open_h 11) book10).2).1 = Ret (dec 105) ∧
  (get_bid (add (open_c 11) book10).2).1 = Ret (dec 100).
Proof. vm_compute. done. Qed.

(** ** Replaying a feed *)

Lemma run_stale (messages : list Message) (sequence : Z)
    (self : OrderBook) :
  sequence ≠ (-1)%Z →
  _sequence self = sequence →
  Forall (λ m, (default (-1) (m_sequence m) ≤ sequence)%Z) messages →
  ∃ self',
    run messages self =
      (Ret (replicate (length messages)
              (RStr "Current book sequence beyond this order")), self') ∧
    _bids self' = _bids self ∧
    _asks self' = _asks self ∧
    _sequence self' = sequence ∧
    _client self' = _client self ∧
    _current_ticker self' = _current_ticker self.
Proof.
  intros Hinit Hseq Hall. revert self Hseq.
  induction Hall as [|m messages Hm _ IH]; intros self Hseq.
  { by exists self. }
  cbn [run]. rewrite on_message_stale by (rewrite Hseq; done).
  destruct (IH (logged m self)) as (self' & -> & Hb & Ha & Hs & Hc & Ht);
    [done|].
  exists self'. by repeat split.
Qed.

(** X19. Replaying a feed is harmless: once the handler has returned on
    every message of a gap-free feed (sequences S+1, ..., S+n from a book
    at S >= 0), handling the same messages again returns 'Current book
    sequence beyond this order' for each of them and changes neither side,
    nor the sequence, the client or the ticker. *)
Theorem replayed_feed_is_ignored (messages : list Message)
    (self self' : OrderBook) (results : list retval) :
  (0 ≤ _sequence self)%Z →
  consecutive (_sequence self) messages →
  run messages self = (Ret results, self') →
  ∃ self'',
    run messages self' =
      (Ret (replicate (length messages)
              (RStr "Current book sequence beyond this order")), self'') ∧
    _bids self'' = _bids self' ∧
    _asks self'' = _asks self' ∧
    _sequence self'' = _sequence self' ∧
    _client self'' = _client self' ∧
    _current_ticker self'' = _current_ticker self'.
Proof.
  intros Hsynced Hall Hrun.
  assert (_sequence self' =
            (_sequence self + Z.of_nat (length messages))%Z) as Hseq.
  { clear -Hsynced Hall Hrun. revert self results Hsynced Hall Hrun.
    induction messages as [|m messages IH];
      intros self results Hsynced Hall; simpl.
    - intros [= <- <-]. lia.
    - destruct (on_message m self) as [[r|e] book] eqn:Hm; [|done].
      destruct (run messages book) as [[rs|e] book'] eqn:Hrun; [|done].
      intros [= <- <-].
      destruct (in_order_returns self book m r) as [Hseq _];
        [lia|rewrite (Hall 0%nat m eq_refl); simpl; lia|done|].
      rewrite (IH book rs);
        [lia|lia|rewrite Hseq; by eapply consecutive_tail|done]. }
  destruct (run_stale messages (_sequence self') self')
    as (self'' & Hreplay & ?); [lia|done| |by exists self''].
  apply Forall_lookup. intros i m Hi. rewrite (Hall i m Hi), Hseq. simpl.
  apply lookup_lt_Some in Hi. lia.
Qed.

Lemma replayed_feed_is_ignored_witness :
  ∃ self'',
    run feed13 (run feed13 book10).2 =
      (Ret (replicate (length feed13)
              (RStr "Current book sequence beyond this order")), self'') ∧
    _bids self'' = _bids (run feed13 book10).2 ∧
    _asks self'' = _asks (run feed13 book10).2 ∧
    _sequence self'' = _sequence (run feed13 book10).2 ∧
    _client self'' = _client (run feed13 book10).2 ∧
    _current_ticker self'' = _current_ticker (run feed13 book10).2.
Proof.
  apply (replayed_feed_is_ignored feed13 book10 (run feed13 book10).2
           [RPair (Some (dec 100)) (dec 1); RPair (Some (dec 100)) (dec (-2));
            RPair (Some (dec 100)) (dec 2)]).
  - simpl; lia.
  - intros [|[|[|i]]] m Hi; simplify_eq/=; reflexivity.
  - vm_compute; reflexivity.
Defined.
